(** * Prefect database cleanup: retention executor, health reporter, backup copier

    A shallow embedding of [prefect_cleanup/cleanup_manager.py],
    [prefect_cleanup/monitoring.py] and [prefect_cleanup/backup_handler.py].

    The relational engine and the file system are outside the package; they
    are modelled by what the package relies on:
    - a database is a finite map from table names to lists of rows, a row
      carries a nullable [created] timestamp (micro-seconds on the proleptic
      Gregorian time line, the way CPython orders [datetime] values);
    - a statement on a table raises when the table does not exist, or when
      the engine refuses it for a reason of its own ([fault]);
    - a SQLAlchemy 2.0 connection begins a transaction on first use, makes it
      durable on [commit], and discards whatever is uncommitted when the
      [with] block closes it;
    - the file system is a finite map from paths to regular files: a file
      has one path, written the way a POSIX [Path] prints it (no links, no
      second spelling through [..] or an absolute prefix), and the
      directories are those the stored paths pass through;
    - [pg_dump] is a program outside the package, known by the return code
      and the stderr of its run, or by the exception of a run that could
      not start. *)

From Stdlib Require Import ZArith Lia Ascii String.
From stdpp Require Import gmap strings list sorting pretty.

Local Open Scope string_scope.
Local Open Scope list_scope.
Local Open Scope Z_scope.

Set Warnings "-clear-no-such-hyp".

(** ** Python exceptions and results *)

Inductive exn : Type :=
  | OverflowError (msg : string)
  | OperationalError (msg : string)
  | FileNotFoundError (msg : string)
  | IsADirectoryError (msg : string)
  | SameFileError (msg : string)
  | RuntimeError (msg : string).

Global Instance exn_eq_dec : EqDecision exn.
Proof. solve_decision. Defined.

(** [str(e)] *)
Definition exn_str (e : exn) : string :=
  match e with
  | OverflowError m | OperationalError m | FileNotFoundError m
  | IsADirectoryError m | SameFileError m | RuntimeError m => m
  end.

Inductive result (A : Type) : Type :=
  | Ok (a : A)
  | Raise (e : exn).
Arguments Ok {A} a.
Arguments Raise {A} e.

(** Python values held in the dictionaries the package returns. A float that
    [round(x, 2)] produced is kept as its number of hundredths. *)
Inductive pyval : Type :=
  | PyInt (n : Z)
  | PyStr (s : string)
  | PyRounded2 (hundredths : Z).

Global Instance pyval_eq_dec : EqDecision pyval.
Proof. solve_decision. Defined.

(** ** Rows, tables, databases *)

Record row : Type := Row {
  row_id : Z;
  created : option Z;      (* NULL is [None] *)
  payload : string
}.

Abbreviation database := (gmap string (list row)).

(** [created < :cutoff] under SQL's three-valued logic: a NULL timestamp
    never satisfies the WHERE clause. *)
Definition created_before (cutoff : Z) (r : row) : bool :=
  match created r with
  | Some c => c <? cutoff
  | None => false
  end.

(** ** [datetime.now() - timedelta(days=days)] *)

Definition us_per_day : Z := 86400000000.
Definition timedelta_max_days : Z := 999999999.
(** micro-seconds from 0001-01-01T00:00:00 up to and excluding
    10000-01-01T00:00:00 *)
Definition datetime_span : Z := 3652059 * us_per_day.

Definition timedelta (days : Z) : result Z :=
  if Z.abs days <=? timedelta_max_days then Ok (days * us_per_day)
  else Raise (OverflowError "days out of range for timedelta").

Definition datetime_sub (t delta : Z) : result Z :=
  let r := t - delta in
  if (0 <=? r) && (r <? datetime_span) then Ok r
  else Raise (OverflowError "date value out of range").

Definition cutoff_date (now days : Z) : result Z :=
  match timedelta days with
  | Ok delta => datetime_sub now delta
  | Raise e => Raise e
  end.

(** ** The connection *)

Inductive event : Type :=
  | EvExecute (table : string)
  | EvCommit
  | EvClose.

Global Instance event_eq_dec : EqDecision event.
Proof. solve_decision. Defined.

Record connection : Type := Connection {
  committed : database;    (* what every other session sees *)
  pending : database;      (* this session's view, inside its transaction *)
  trace : list event       (* what was sent to the engine, oldest first *)
}.

(** Computations on an open connection: they change it and return or raise. *)
Definition Conn (A : Type) : Type := connection → connection * result A.

Definition conn_ret {A} (a : A) : Conn A := λ c, (c, Ok a).

Definition conn_bind {A B} (m : Conn A) (k : A → Conn B) : Conn B :=
  λ c, match m c with
       | (c', Ok a) => k a c'
       | (c', Raise e) => (c', Raise e)
       end.

Notation "x <- m ;; k" := (conn_bind m (λ x, k))
  (at level 100, m at next level, right associativity).

Section engine.
(** [fault t = Some msg]: the engine refuses any statement on table [t]
    (lock, permission, broken schema, lost link) with message [msg]. *)
Variable fault : string → option string.

Definition log_event (ev : event) (c : connection) : connection :=
  {| committed := committed c; pending := pending c;
     trace := trace c ++ [ev] |}.

Definition no_such_table (table : string) : exn :=
  OperationalError ("no such table: " +:+ table).

(** Sending a statement that touches [table]: the engine records it, then
    refuses it or hands over the table's rows. *)
Definition fetch_table (table : string) : Conn (list row) :=
  λ c,
    let c1 := log_event (EvExecute table) c in
    match fault table with
    | Some msg => (c1, Raise (OperationalError msg))
    | None =>
        match pending c !! table with
        | None => (c1, Raise (no_such_table table))
        | Some rows => (c1, Ok rows)
        end
    end.

(** The exception a statement on [table] raises in database [db], if it
    raises. *)
Definition statement_error (db : database) (table : string) : option exn :=
  match fault table with
  | Some msg => Some (OperationalError msg)
  | None =>
      match db !! table with
      | None => Some (no_such_table table)
      | Some _ => None
      end
  end.

Definition store_table (table : string) (rows : list row) : Conn unit :=
  λ c, ({| committed := committed c;
           pending := <[table := rows]> (pending c);
           trace := trace c |}, Ok tt).

(** [conn.execute(text(f"DELETE FROM {table} WHERE created < :cutoff"),
    {"cutoff": cutoff_date})], returning [result.rowcount]. *)
Definition execute_delete (table : string) (cutoff : Z) : Conn Z :=
  rows <- fetch_table table ;;
  _ <- store_table table
         (List.filter (λ r, negb (created_before cutoff r)) rows) ;;
  conn_ret (Z.of_nat (length (List.filter (created_before cutoff) rows))).

(** [conn.execute(text(f"SELECT COUNT(*) FROM {table}"))] then
    [result.scalar()]. *)
Definition execute_count (table : string) : Conn Z :=
  rows <- fetch_table table ;;
  conn_ret (Z.of_nat (length rows)).

(** [conn.commit()] *)
Definition commit : Conn unit :=
  λ c, ({| committed := pending c; pending := pending c;
           trace := trace c ++ [EvCommit] |}, Ok tt).

(** [with self.engine.connect() as conn: body]: the block runs on a fresh
    connection; leaving it, normally or by an exception, closes the
    connection, and closing rolls back what was not committed. The outcome
    is the database left behind, the trace, and the block's result. *)
Definition with_connect {A} (db : database) (body : Conn A)
  : database * list event * result A :=
  match body {| committed := db; pending := db; trace := [] |} with
  | (c, r) => (committed c, trace c ++ [EvClose], r)
  end.

(** *** [PrefectCleanup.run] *)

Definition tables : list string :=
  [ "log"; "task_run_state"; "task_run"; "flow_run_state"; "flow_run";
    "event_resources"; "events"; "artifact" ].

(** The [for table in tables] loop, filling [stats]. *)
Fixpoint delete_loop (ts : list string) (cutoff : Z) (stats : gmap string Z)
  : Conn (gmap string Z) :=
  match ts with
  | [] => conn_ret stats
  | table :: ts' =>
      rowcount <- execute_delete table cutoff ;;
      delete_loop ts' cutoff (<[table := rowcount]> stats)
  end.

Definition run (now days : Z) (db : database)
  : database * list event * result (gmap string Z) :=
  match cutoff_date now days with
  | Raise e => (db, [], Raise e)
  | Ok cutoff =>
      with_connect db
        (stats <- delete_loop tables cutoff ∅ ;;
         _ <- commit ;;
         conn_ret stats)
  end.

(** *** [DatabaseMonitor.health_check] *)

Record health : Type := Health {
  timestamp : string;
  table_counts : gmap string pyval;
  total_records : Z;
  needs_cleanup : bool;
  is_large : bool;
  recommendation : string;
  status : string
}.

(** The [tables] dictionary of [health_check], in insertion order. *)
Definition monitored : list (string * string) :=
  [ ("logs", "log"); ("flow_runs", "flow_run");
    ("task_runs", "task_run"); ("events", "events") ].

(** [try: counts[name] = scalar  except Exception as e:
    counts[name] = f"Error: {e}"] *)
Definition count_slot (table : string) : Conn pyval :=
  λ c, match execute_count table c with
       | (c', Ok n) => (c', Ok (PyInt n))
       | (c', Raise e) => (c', Ok (PyStr ("Error: " +:+ exn_str e)))
       end.

Fixpoint count_loop (items : list (string * string))
    (counts : gmap string pyval) : Conn (gmap string pyval) :=
  match items with
  | [] => conn_ret counts
  | (name, table) :: items' =>
      v <- count_slot table ;;
      count_loop items' (<[name := v]> counts)
  end.

(** [sum(v for v in counts.values() if isinstance(v, int))] *)
Definition sum_ints (counts : gmap string pyval) : Z :=
  map_fold (λ _ v acc, match v with PyInt n => n + acc | _ => acc end)
           0 counts.

Definition _get_recommendation (total_records : Z) : string :=
  if total_records <? 10000 then "Database is small and healthy"
  else if total_records <? 100000 then "Database is growing but fine"
  else if total_records <? 500000 then
    "Consider monthly cleanup (30 days retention)"
  else if total_records <? 1000000 then
    "Recommend weekly cleanup (7 days retention)"
  else "URGENT: Database is very large, cleanup immediately".

(** [now_iso] is [datetime.now().isoformat()]. *)
Definition health_check (now_iso : string) (db : database)
  : database * list event * result health :=
  with_connect db
    (counts <- count_loop monitored ∅ ;;
     let total := sum_ints counts in
     let needs := 100000 <? total in
     let large := 500000 <? total in
     conn_ret {| timestamp := now_iso;
                 table_counts := counts;
                 total_records := total;
                 needs_cleanup := needs;
                 is_large := large;
                 recommendation := _get_recommendation total;
                 status := if negb needs then "healthy"
                           else "attention_needed" |}).

End engine.

(** ** Text helpers: the [str] and [pathlib] operations the package calls

    A path is the text [str] gives for a POSIX [Path]; the file system holds
    regular files only, keyed by their path in that form. Directories are
    not stored: [is_directory] below tells which paths are taken to be
    one. *)

Definition ascii_lower (c : ascii) : ascii :=
  let n := N_of_ascii c in
  if ((65 <=? n) && (n <=? 90))%N then ascii_of_N (n + 32) else c.

(** [s.lower()] *)
Fixpoint lower (s : string) : string :=
  match s with
  | EmptyString => EmptyString
  | String c s' => String (ascii_lower c) (lower s')
  end.

(** [needle in s] *)
Fixpoint str_in (needle s : string) : bool :=
  String.prefix needle s ||
  match s with
  | EmptyString => false
  | String _ s' => str_in needle s'
  end.

(** [s.replace(old, new)] for a non-empty [old]: occurrences are taken from
    the left and do not overlap; [skip] counts the characters of the current
    occurrence still to be passed over. *)
Fixpoint replace_from (old new : string) (skip : nat) (s : string) : string :=
  match s with
  | EmptyString => EmptyString
  | String c s' =>
      match skip with
      | S k => replace_from old new k s'
      | O =>
          if String.prefix old s
          then new +:+ replace_from old new (Nat.pred (String.length old)) s'
          else String c (replace_from old new O s')
      end
  end.

Definition replace (old new s : string) : string := replace_from old new O s.

(** [s.endswith(suffix)] *)
Definition endswith (suffix s : string) : bool :=
  let n := String.length s in
  let m := String.length suffix in
  (m <=? n)%nat && String.eqb (String.substring (n - m) m s) suffix.

(** [s.rfind(c)] for a single character *)
Fixpoint rfind (c : ascii) (s : string) : option nat :=
  match s with
  | EmptyString => None
  | String a s' =>
      match rfind c s' with
      | Some i => Some (S i)
      | None => if Ascii.eqb a c then Some O else None
      end
  end.

(** The final component of a path: [Path(p).name] *)
Definition basename (p : string) : string :=
  match rfind "/"%char p with
  | Some i => String.substring (S i) (String.length p - S i) p
  | None => p
  end.

(** [PurePath.stem]: the final component without its last suffix. *)
Definition stem (p : string) : string :=
  let name := basename p in
  match rfind "."%char name with
  | Some i =>
      if ((0 <? i) && (i <? String.length name - 1))%nat
      then String.substring 0 i name else name
  | None => name
  end.

(** [s.split(sep)] for a one-character separator *)
Fixpoint split_on (sep : ascii) (s : string) : list string :=
  match s with
  | EmptyString => [EmptyString]
  | String c s' =>
      if Ascii.eqb c sep then EmptyString :: split_on sep s'
      else match split_on sep s' with
           | [] => [String c EmptyString]
           | w :: ws => String c w :: ws
           end
  end.

(** [str(Path(s))]: the root is kept ([//] only when there are exactly two
    leading slashes), empty components and [.] components are dropped, the
    others ([..] included) are joined by single slashes, and the path with
    nothing left is [.]. *)
Definition Path (s : string) : string :=
  let root :=
    if String.prefix "//" s && negb (String.prefix "///" s) then "//"
    else if String.prefix "/" s then "/" else "" in
  let parts :=
    List.filter (λ x, negb (String.eqb x "") && negb (String.eqb x "."))
                (split_on "/" s) in
  let body := root +:+ String.concat "/" parts in
  if String.eqb body "" then "." else body.

(** [dir / name] *)
Definition path_join (dir name : string) : string :=
  if String.prefix "/" name then name else dir +:+ "/" +:+ name.

Fixpoint strip_prefix (pre s : string) : option string :=
  match pre, s with
  | EmptyString, _ => Some s
  | String a pre', String b s' =>
      if Ascii.eqb a b then strip_prefix pre' s' else None
  | String _ _, EmptyString => None
  end.

(** The name under which [p] is listed in directory [dir], if it is. *)
Definition child_name (dir p : string) : option string :=
  match strip_prefix (dir +:+ "/") p with
  | Some b => if String.eqb b "" || str_in "/" b then None else Some b
  | None => None
  end.

(** [s.zfill(width)] on the digits of a non-negative number *)
Definition zfill (width : nat) (s : string) : string :=
  string_of_list_ascii (replicate (width - String.length s) "0"%char) +:+ s.

(** ** Dates *)

Record datetime : Type := Datetime {
  year : Z; month : Z; day : Z;
  hour : Z; minute : Z; second : Z; microsecond : Z
}.

(** [d.strftime("%Y%m%d_%H%M%S")] *)
Definition strftime_Ymd_HMS (d : datetime) : string :=
  zfill 4 (pretty (year d)) +:+ zfill 2 (pretty (month d)) +:+
  zfill 2 (pretty (day d)) +:+ "_" +:+
  zfill 2 (pretty (hour d)) +:+ zfill 2 (pretty (minute d)) +:+
  zfill 2 (pretty (second d)).

(** [d.isoformat()] *)
Definition isoformat (d : datetime) : string :=
  zfill 4 (pretty (year d)) +:+ "-" +:+ zfill 2 (pretty (month d)) +:+ "-" +:+
  zfill 2 (pretty (day d)) +:+ "T" +:+
  zfill 2 (pretty (hour d)) +:+ ":" +:+ zfill 2 (pretty (minute d)) +:+ ":" +:+
  zfill 2 (pretty (second d)) +:+
  (if microsecond d =? 0 then ""
   else "." +:+ zfill 6 (pretty (microsecond d))).

(** ** Python's built-ins *)

(** [l[k:]] *)
Definition slice_from {A} (k : Z) (l : list A) : list A :=
  let n := Z.of_nat (length l) in
  let start := if k <? 0 then Z.max (n + k) 0 else Z.min k n in
  drop (Z.to_nat start) l.

(** [sorted(l, key=key, reverse=True)]: descending keys, and elements with
    equal keys in the order they had in [l]. *)
Section sorted_reverse.
Context {A K : Type} (le : K → K → bool) (key : A → K).

Fixpoint insert_desc (x : A) (l : list A) : list A :=
  match l with
  | [] => [x]
  | y :: l' =>
      if le (key y) (key x) then x :: l else y :: insert_desc x l'
  end.

Definition sorted_reverse (l : list A) : list A := foldr insert_desc [] l.
End sorted_reverse.

(** [round(num / den, 0)] to an integer, ties to even ([den] positive) *)
Definition round_half_even (num den : Z) : Z :=
  let q := num / den in
  let r := num mod den in
  if 2 * r <? den then q
  else if den <? 2 * r then q + 1
  else if Z.even q then q else q + 1.

(** ** The file system *)

Record file : Type := File {
  content : list Byte.byte;
  st_ctime : Z      (* micro-seconds since the epoch *)
}.

Definition st_size (f : file) : Z := Z.of_nat (length (content f)).

Abbreviation filesystem := (gmap string file).

(** [path.unlink()] *)
Definition unlink (p : string) (fs : filesystem) : result filesystem :=
  match fs !! p with
  | Some _ => Ok (delete p fs)
  | None => Raise (FileNotFoundError ("No such file or directory: " +:+ p))
  end.

(** [p.is_dir()]: the working directory, the root and what [..] leads to
    are directories, and so is every path some stored file lies under. *)
Definition is_directory (fs : filesystem) (p : string) : bool :=
  forallb (λ x, String.eqb x "" || String.eqb x "." || String.eqb x "..")
          (split_on "/" p)
  || existsb (String.prefix (p +:+ "/")) (map_to_list fs).*1.

(** [p.exists()] *)
Definition path_exists (fs : filesystem) (p : string) : bool :=
  match fs !! p with
  | Some _ => true
  | None => is_directory fs p
  end.

(** What [shutil.copy2(src, dst)] does at time [now] once it has found
    [src] to be a regular file other than [dst]: [dst] is created or
    overwritten with the bytes of [src]. *)
Definition copy2 (now : Z) (src : file) (dst : string) (fs : filesystem)
  : filesystem :=
  <[dst := {| content := content src; st_ctime := now |}]> fs.

(** [dir.glob("*.backup")]: the matching paths with what [stat()] gives for
    them, in the order the directory is enumerated. *)
Definition is_backup_in (dir p : string) : bool :=
  match child_name dir p with
  | Some b => endswith ".backup" b
  | None => false
  end.

Definition glob_backup (dir : string) (fs : filesystem) : list (string * file) :=
  List.filter (λ pf, is_backup_in dir pf.1) (map_to_list fs).

(** ** [BackupHandler] *)

Record BackupHandler : Type := {
  db_url : string;
  backup_dir : string
}.

Record backup_listing : Type := {
  backup_directory : string;
  total_backups : Z;
  backups : list (gmap string pyval)
}.

(** [x["created"]] on an entry built by [list_backups] (the key is always
    there, and always a string). *)
Definition entry_created (x : gmap string pyval) : string :=
  match x !! "created" with
  | Some (PyStr s) => s
  | _ => ""
  end.

Section backup.
(** [datetime.fromtimestamp]: the local civil time of an instant, as the
    process's time zone has it. *)
Variable fromtimestamp : Z → datetime.
(** [subprocess.run(["pg_dump", url, "-f", path, "--verbose"],
    capture_output=True, text=True)]: the file system afterwards, and either
    the return code with the captured stderr of the process, or what
    [subprocess.run] raised because it could not start one. *)
Variable pg_dump :
  string → string → filesystem → filesystem * result (Z * string).

Definition _is_sqlite (self : BackupHandler) : bool :=
  str_in "sqlite" (lower (db_url self)).

(** [source_path = Path(db_file)] of [_backup_sqlite], where [db_file] is
    the URL after the two [replace] calls *)
Definition source_path (self : BackupHandler) : string :=
  Path (replace "sqlite://" "" (replace "sqlite:///" "" (db_url self))).

(** [shutil.copy2] first refuses to copy a file onto itself, then opens
    its source for reading, which a directory refuses. *)
Definition _backup_sqlite (self : BackupHandler) (now : Z)
    (backup_path : string) (fs : filesystem) : filesystem * result unit :=
  if negb (path_exists fs (source_path self)) then
    (fs, Raise (FileNotFoundError
                  ("Database file not found: " +:+ source_path self)))
  else if String.eqb (source_path self) backup_path then
    (fs, Raise (SameFileError
                  ("PosixPath('" +:+ source_path self +:+ "') and PosixPath('"
                   +:+ backup_path +:+ "') are the same file")))
  else
    match fs !! source_path self with
    | Some src => (copy2 now src backup_path fs, Ok tt)
    | None =>
        (fs, Raise (IsADirectoryError
                      ("[Errno 21] Is a directory: '" +:+ source_path self
                       +:+ "'")))
    end.

Definition _backup_postgres (self : BackupHandler) (backup_path : string)
    (fs : filesystem) : filesystem * result unit :=
  match pg_dump (db_url self) backup_path fs with
  | (fs', Raise e) => (fs', Raise e)
  | (fs', Ok (returncode, stderr)) =>
      if negb (returncode =? 0)
      then (fs', Raise (RuntimeError ("pg_dump failed: " +:+ stderr)))
      else (fs', Ok tt)
  end.

(** [create(name)] at instant [now]; the [except] clause logs and re-raises
    what it caught. *)
Definition create (self : BackupHandler) (now : Z) (name : option string)
    (fs : filesystem) : filesystem * result string :=
  let name :=
    match name with
    | Some n => n
    | None => "prefect_backup_" +:+ strftime_Ymd_HMS (fromtimestamp now)
    end in
  let backup_path := path_join (backup_dir self) (name +:+ ".backup") in
  match (if _is_sqlite self then _backup_sqlite self now backup_path fs
         else _backup_postgres self backup_path fs) with
  | (fs', Ok _) => (fs', Ok backup_path)
  | (fs', Raise e) => (fs', Raise e)
  end.

(** The [backup_path] of [create(name)] at instant [now]. *)
Definition backup_path_at (self : BackupHandler) (now : Z)
    (name : option string) : string :=
  path_join (backup_dir self)
    (match name with
     | Some n => n
     | None => "prefect_backup_" +:+ strftime_Ymd_HMS (fromtimestamp now)
     end +:+ ".backup").

(** One dictionary of [list_backups]. *)
Definition backup_entry (pf : string * file) : gmap string pyval :=
  <["created" := PyStr (isoformat (fromtimestamp (st_ctime pf.2)))]>
    (<["size_mb" := PyRounded2 (round_half_even (st_size pf.2 * 100)
                                                (1024 * 1024))]>
       (<["path" := PyStr pf.1]>
          (<["name" := PyStr (stem pf.1)]> ∅))).

Definition list_backups (self : BackupHandler) (fs : filesystem)
  : backup_listing :=
  let backups :=
    sorted_reverse String.leb entry_created
      (backup_entry <$> glob_backup (backup_dir self) fs) in
  {| backup_directory := backup_dir self;
     total_backups := Z.of_nat (length backups);
     backups := backups |}.

(** The [for backup_file in backup_files[keep_count:]] loop. *)
Fixpoint unlink_loop (files : list (string * file)) (fs : filesystem)
    (deleted_count : Z) : filesystem * result Z :=
  match files with
  | [] => (fs, Ok deleted_count)
  | pf :: files' =>
      match unlink pf.1 fs with
      | Ok fs' => unlink_loop files' fs' (deleted_count + 1)
      | Raise e => (fs, Raise e)
      end
  end.

Definition cleanup_old_backups (self : BackupHandler) (keep_count : Z)
    (fs : filesystem) : filesystem * result Z :=
  let backup_files :=
    sorted_reverse Z.leb (λ pf : string * file, st_ctime pf.2)
      (glob_backup (backup_dir self) fs) in
  unlink_loop (slice_from keep_count backup_files) fs 0.

End backup.


(** ** What a successful [run] amounts to, table by table *)

(** The rows a [DELETE ... WHERE created < :cutoff] leaves. *)
Definition kept_rows (cutoff : Z) (rows : list row) : list row :=
  List.filter (λ r, negb (created_before cutoff r)) rows.

(** The [rowcount] it reports. *)
Definition gone_count (cutoff : Z) (rows : list row) : Z :=
  Z.of_nat (length (List.filter (created_before cutoff) rows)).

(** ** What [health_check] reports, table by table *)

(** [v if isinstance(v, int) else 0] *)
Definition int_of (v : pyval) : Z :=
  match v with
  | PyInt n => n
  | _ => 0
  end.

Definition table_count (db : database) (table : string) : Z :=
  match db !! table with
  | Some rows => Z.of_nat (length rows)
  | None => 0
  end.

(** The slot of a table: its row count, or the text of what its COUNT
    raised. *)
Definition slot_of (fault : string → option string) (db : database)
    (table : string) : pyval :=
  match statement_error fault db table with
  | Some e => PyStr ("Error: " +:+ exn_str e)
  | None => PyInt (table_count db table)
  end.

(** What a table adds to [total_records]. *)
Definition counted (fault : string → option string) (db : database)
    (table : string) : Z :=
  match statement_error fault db table with
  | Some _ => 0
  | None => table_count db table
  end.

(** ** The backups of a directory, newest first *)

Definition newest_first (dir : string) (fs : filesystem) : list (string * file) :=
  sorted_reverse Z.leb (λ pf : string * file, st_ctime pf.2)
    (glob_backup dir fs).

(** ** Sample data

    The scenario of the test suite: one row dated 60 days ago and one dated
    10 days ago in [log], the other tables empty. *)

Definition sample_now : Z := 739000 * us_per_day + 43200000000.

Definition old_log : row :=
  {| row_id := 1; created := Some (sample_now - 60 * us_per_day);
     payload := "Old log entry" |}.

Definition new_log : row :=
  {| row_id := 2; created := Some (sample_now - 10 * us_per_day);
     payload := "New log entry" |}.

Definition empty_schema : database :=
  list_to_map ((λ t, (t, [])) <$> tables).

Definition sample_db : database := <["log" := [old_log; new_log]]> empty_schema.

(** The same database before the [flow_run] table was created. *)
Definition legacy_db : database := delete "flow_run" sample_db.

Definition no_fault : string → option string := λ _, None.

(** [n] log rows, one second apart, the latest at [sample_now]. *)
Definition many_rows (n : Z) : list row :=
  (λ i : nat, {| row_id := Z.of_nat i;
                 created := Some (sample_now - Z.of_nat i * 1000000);
                 payload := "log line" |}) <$> seq 0 (Z.to_nat n).

Definition db_of_size (n : Z) : database := <["log" := many_rows n]> empty_schema.

(** A deployment where the [events] table cannot be read. *)
Definition events_locked : string → option string :=
  λ t, if String.eqb t "events" then Some "database is locked" else None.

Definition sample_iso : string := "2024-04-27T12:00:00".

(** What [health_check] answers on the sample database. *)
Definition sample_health : health :=
  {| timestamp := sample_iso;
     table_counts :=
       <["events" := PyInt 0]> (<["task_runs" := PyInt 0]>
         (<["flow_runs" := PyInt 0]> (<["logs" := PyInt 2]> ∅)));
     total_records := 2;
     needs_cleanup := false;
     is_large := false;
     recommendation := "Database is small and healthy";
     status := "healthy" |}.

(** A handler on a SQLite file, and a backup directory holding three backups
    made at instants 10, 30 and 20, next to a file that is not a backup. *)
Definition sample_handler : BackupHandler :=
  {| db_url := "sqlite:///data/prefect.db"; backup_dir := "backups" |}.

Definition sample_file (text : string) (ctime : Z) : file :=
  {| content := list_byte_of_string text; st_ctime := ctime |}.

Definition sample_fs : filesystem :=
  <["backups/a.backup" := sample_file "first" 10000000]>
    (<["backups/b.backup" := sample_file "third" 30000000]>
       (<["backups/c.backup" := sample_file "second" 20000000]>
          (<["backups/notes.txt" := sample_file "keep me" 99000000]>
             (<["data/prefect.db" := sample_file "SQLite format 3" 1000000]> ∅)))).

(** A clock for the samples: instants are micro-seconds into 2024-04-27. *)
Definition sample_clock (t : Z) : datetime :=
  {| year := 2024; month := 4; day := 27;
     hour := t / 3600000000; minute := t / 60000000 mod 60;
     second := t / 1000000 mod 60; microsecond := t mod 1000000 |}.

(** A machine without [pg_dump]: [subprocess.run] finds no executable of
    that name and starts nothing. *)
Definition pg_dump_missing (url path : string) (fs : filesystem)
  : filesystem * result (Z * string) :=
  (fs, Raise (FileNotFoundError
                "[Errno 2] No such file or directory: 'pg_dump'")).

(** A handler configured with the URL of an async driver. *)
Definition async_handler : BackupHandler :=
  {| db_url := "sqlite+aiosqlite:///data/prefect.db"; backup_dir := "backups" |}.

(** A local clock that is set back by one hour at 02:00, so that the hour
    from 01:00 to 02:00 is shown twice. *)
Definition fold_clock (t : Z) : datetime :=
  sample_clock (if t <? 7200000000 then t else t - 3600000000).

(** Two backups: one made at 01:30 before the clock is set back, one made
    forty minutes later, when the clock shows 01:10. *)
Definition fold_fs : filesystem :=
  <["backups/old.backup" := sample_file "old" 5400000000]>
    (<["backups/new.backup" := sample_file "new" 7800000000]> ∅).

(** ** [PrefectCleanup.size] *)

Section engine_size.
Variable fault : string → option string.

Definition size_tables : list string :=
  [ "log"; "task_run"; "flow_run"; "events"; "artifact" ].

(** The [for table in tables] loop of [size]; nothing is caught. *)
Fixpoint size_loop (ts : list string) (stats : gmap string Z)
  : Conn (gmap string Z) :=
  match ts with
  | [] => conn_ret stats
  | table :: ts' =>
      n <- execute_count fault table ;;
      size_loop ts' (<[table := n]> stats)
  end.

Definition size (db : database)
  : database * list event * result (gmap string Z) :=
  with_connect db (size_loop size_tables ∅).

End engine_size.

(** ** [DatabaseMonitor.size_summary]

    Text is ASCII here: [upper] and [strip] act on the characters below 128
    the way [str.upper] and [str.strip] do. *)

Definition newline : string := String "010"%char EmptyString.

Definition ascii_upper (c : ascii) : ascii :=
  let n := N_of_ascii c in
  if ((97 <=? n) && (n <=? 122))%N then ascii_of_N (n - 32) else c.

(** [s.upper()] *)
Fixpoint upper (s : string) : string :=
  match s with
  | EmptyString => EmptyString
  | String c s' => String (ascii_upper c) (upper s')
  end.

(** [c.isspace()] *)
Definition is_space (c : ascii) : bool :=
  let n := N_of_ascii c in
  (((9 <=? n) && (n <=? 13)) || ((28 <=? n) && (n <=? 32)))%N.

(** [s.lstrip()] *)
Fixpoint lstrip (s : string) : string :=
  match s with
  | EmptyString => EmptyString
  | String c s' => if is_space c then lstrip s' else s
  end.

(** [s.rstrip()] *)
Fixpoint rstrip (s : string) : string :=
  match s with
  | EmptyString => EmptyString
  | String c s' =>
      match rstrip s' with
      | EmptyString => if is_space c then EmptyString else String c EmptyString
      | r => String c r
      end
  end.

(** [s.strip()] *)
Definition strip (s : string) : string := lstrip (rstrip s).

(** The digits of a number, last digit first, with a comma before every
    fourth, eighth, ... digit; [i] digits were put out since the last
    comma. *)
Fixpoint commas_rev (digits_rev : list ascii) (i : nat) : list ascii :=
  match digits_rev with
  | [] => []
  | d :: rest =>
      match i with
      | 3%nat => ","%char :: d :: commas_rev rest 1
      | _ => d :: commas_rev rest (S i)
      end
  end.

(** [f"{n:,}"] *)
Definition format_commas (n : Z) : string :=
  let digits := list_ascii_of_string (pretty (Z.abs n)) in
  (if n <? 0 then "-" else "")
  +:+ string_of_list_ascii (reverse (commas_rev (reverse digits) 0)).

(** [str(x)] of a float that holds a number of hundredths (below 1e16). *)
Definition str_rounded2 (h : Z) : string :=
  let a := Z.abs h in
  (if h <? 0 then "-" else "") +:+ pretty (a / 100) +:+ "." +:+
  (if a mod 10 =? 0 then pretty (a mod 100 / 10)
   else zfill 2 (pretty (a mod 100))).

(** One line of the table breakdown. *)
Definition breakdown_line (name : string) (count : pyval) : string :=
  match count with
  | PyInt n => "  " +:+ name +:+ ": " +:+ format_commas n
  | PyStr s => "  " +:+ name +:+ ": " +:+ s
  | PyRounded2 h => "  " +:+ name +:+ ": " +:+ str_rounded2 h
  end.

(** [health["table_counts"].items()]: the dictionary was filled in the order
    of [monitored], and that is the order in which it is read back. *)
Definition count_items (h : health) : list (string * pyval) :=
  omap (λ nt : string * string, (λ v, (nt.1, v)) <$> table_counts h !! nt.1)
       monitored.

(** The f-string of [size_summary], before [strip()]. *)
Definition summary_text (h : health) : string :=
  newline +:+ "Database Status: " +:+ upper (status h) +:+ newline +:+
  "Total Records: " +:+ format_commas (total_records h) +:+ newline +:+
  "Recommendation: " +:+ recommendation h +:+ newline +:+
  newline +:+
  "Table Breakdown:" +:+ newline +:+
  String.concat newline
    ((λ nc : string * pyval, breakdown_line nc.1 nc.2) <$> count_items h)
  +:+ newline +:+ "        ".

Definition size_summary (fault : string → option string) (now_iso : string)
    (db : database) : database * list event * result string :=
  match health_check fault now_iso db with
  | (db', tr, Ok h) => (db', tr, Ok (strip (summary_text h)))
  | (db', tr, Raise e) => (db', tr, Raise e)
  end.

(** ** [retention_policies] *)

Record RetentionPolicy : Type := {
  days : Z;
  name : string
}.

Definition daily : RetentionPolicy := {| days := 1; name := "daily" |}.
Definition weekly : RetentionPolicy := {| days := 7; name := "weekly" |}.
Definition monthly : RetentionPolicy := {| days := 30; name := "monthly" |}.
Definition quarterly : RetentionPolicy := {| days := 90; name := "quarterly" |}.
(** [RetentionPolicy.custom(days, name="custom")] *)
Definition custom (d : Z) (n : option string) : RetentionPolicy :=
  {| days := d; name := default "custom" n |}.

(** The [POLICIES] dictionary, in insertion order. *)
Definition POLICIES : list (string * RetentionPolicy) :=
  [ ("development", daily); ("staging", weekly);
    ("production", monthly); ("compliance", quarterly) ].

(** [repr] of a list of plain strings *)
Definition repr_str_list (l : list string) : string :=
  "[" +:+ String.concat ", " ((λ s, "'" +:+ s +:+ "'") <$> l) +:+ "]".

Inductive policy_error : Type :=
  | ValueError (msg : string).

(** [get_policy(name)]: [inr] is the policy, [inl] the exception raised. *)
Definition get_policy (policy_name : string) : policy_error + RetentionPolicy :=
  match list_find (λ kv : string * RetentionPolicy, kv.1 = policy_name)
                  POLICIES with
  | Some (_, (_, p)) => inr p
  | None =>
      inl (ValueError ("Unknown policy: " +:+ policy_name +:+ ". Available: "
                       +:+ repr_str_list POLICIES.*1))
  end.

(** ** [quick_cleanup] *)

(** [sum(stats.values())] *)
Definition sum_values (stats : gmap string Z) : Z :=
  map_fold (λ _ v acc, v + acc) 0 stats.

(** What [quick_cleanup] leaves: the file system, the database, the lines
    printed, and what it returns or raises. *)
Record outcome : Type := Outcome {
  out_fs : filesystem;
  out_db : database;
  out_printed : list string;
  out_trace : list event;
  out_result : result (gmap string Z)
}.

Section quick.
Variable fault : string → option string.
Variable fromtimestamp : Z → datetime.
Variable pg_dump :
  string → string → filesystem → filesystem * result (Z * string).
(** The value of [PREFECT_API_DATABASE_CONNECTION_URL]. *)
Variable url : string.

(** [quick_cleanup(days, backup)]; the backup is taken at instant
    [backup_at], the cut-off computed at instant [now]. *)
Definition quick_cleanup (backup_at now : Z) (retention : Z) (backup : bool)
    (fs : filesystem) (db : database) : outcome :=
  let handler := {| db_url := url; backup_dir := "backups" |} in
  let backed :=
    if backup then
      match create fromtimestamp pg_dump handler backup_at None fs with
      | (fs', Ok backup_path) =>
          (fs', Ok ["✅ Backup created: " +:+ backup_path])
      | (fs', Raise e) => (fs', Raise e)
      end
    else (fs, Ok []) in
  match backed with
  | (fs', Raise e) =>
      {| out_fs := fs'; out_db := db; out_printed := []; out_trace := [];
         out_result := Raise e |}
  | (fs', Ok printed) =>
      match run fault now retention db with
      | (db', tr, Ok stats) =>
          {| out_fs := fs'; out_db := db';
             out_printed :=
               printed ++ ["✅ Cleanup completed: "
                           +:+ pretty (sum_values stats) +:+ " records removed"];
             out_trace := tr; out_result := Ok stats |}
      | (db', tr, Raise e) =>
          {| out_fs := fs'; out_db := db'; out_printed := printed;
             out_trace := tr; out_result := Raise e |}
      end
  end.

End quick.

(** ** Telling a returned value from a raised exception *)

Definition is_ok {A} (r : result A) : bool :=
  match r with
  | Ok _ => true
  | Raise _ => false
  end.

(** A second table with a row that carries no date. *)
Definition undated_event : row :=
  {| row_id := 7; created := None; payload := "imported" |}.

Definition dated_db : database := <["events" := [undated_event]]> sample_db.

(** ** The head of the report [size_summary] builds *)

Definition summary_header (h : health) : string :=
  "Database Status: " +:+ upper (status h) +:+ newline +:+
  "Total Records: " +:+ format_commas (total_records h) +:+ newline +:+
  "Recommendation: " +:+ recommendation h +:+ newline +:+
  newline +:+
  "Table Breakdown:".

(** The lines below the header, before the trailing blanks are stripped. *)
Definition summary_lines (h : health) : string :=
  newline +:+
  String.concat newline
    ((λ nc : string * pyval, breakdown_line nc.1 nc.2) <$> count_items h)
  +:+ newline +:+ "        ".

(** The rows removed between two states of the eight tables. *)
Definition rows_removed (db db' : database) : Z :=
  foldr (λ t acc, (table_count db t - table_count db' t) + acc) 0 tables.


(** * Properties *)

(** ** The retention executor *)

Lemma created_before_spec cutoff r :
  created_before cutoff r = true ↔ ∃ ts, created r = Some ts ∧ ts < cutoff.
Proof.
  unfold created_before. destruct (created r) as [ts|].
  - rewrite Z.ltb_lt. split; [eauto|]. by intros (? & [= <-] & ?).
  - split; [done|]. by intros (? & ? & ?).
Qed.

Lemma elem_of_kept_rows cutoff rows r :
  r ∈ kept_rows cutoff rows ↔ r ∈ rows ∧ created_before cutoff r = false.
Proof.
  unfold kept_rows. rewrite !list_elem_of_In, filter_In.
  by rewrite negb_true_iff.
Qed.

Lemma kept_rows_idemp cutoff rows :
  kept_rows cutoff (kept_rows cutoff rows) = kept_rows cutoff rows.
Proof.
  unfold kept_rows. induction rows as [|r rows IH]; [done|]. simpl.
  destruct (created_before cutoff r) eqn:E; simpl; [done|].
  rewrite E. simpl. by rewrite IH.
Qed.

Lemma gone_count_kept_rows cutoff rows :
  gone_count cutoff (kept_rows cutoff rows) = 0.
Proof.
  unfold gone_count, kept_rows. induction rows as [|r rows IH]; [done|].
  simpl. destruct (created_before cutoff r) eqn:E; simpl; [done|].
  by rewrite E.
Qed.

Lemma gone_count_length cutoff rows :
  gone_count cutoff rows =
  Z.of_nat (length rows) - Z.of_nat (length (kept_rows cutoff rows)).
Proof.
  unfold gone_count, kept_rows. induction rows as [|r rows IH]; [done|].
  simpl. destruct (created_before cutoff r); simpl; lia.
Qed.

Lemma cutoff_date_value now days cutoff :
  cutoff_date now days = Ok cutoff → cutoff = now - days * us_per_day.
Proof.
  unfold cutoff_date, timedelta, datetime_sub.
  repeat case_match; naive_solver.
Qed.

(** A list either satisfies a decidable property throughout, or has a first
    element that does not. *)
Lemma first_failure {A} (P : A → Prop) `{!∀ x, Decision (P x)} (l : list A) :
  Forall P l ∨
  ∃ pre x post, l = pre ++ x :: post ∧ Forall P pre ∧ ¬ P x.
Proof.
  induction l as [|a l IH]; [by left|].
  destruct (decide (P a)) as [Ha|Ha].
  - destruct IH as [IH|(pre & x & post & -> & Hpre & Hx)].
    + left. by constructor.
    + right. exists (a :: pre), x, post. split_and!; [done| by constructor |done].
  - right. exists [], a, l. by split_and!.
Qed.

Section executor.
Variable fault : string → option string.

Lemma fetch_table_ok table c :
  statement_error fault (pending c) table = None →
  ∃ rows, pending c !! table = Some rows ∧
          fetch_table fault table c = (log_event (EvExecute table) c, Ok rows).
Proof.
  unfold statement_error, fetch_table. intros H.
  destruct (fault table); [done|].
  destruct (pending c !! table) as [rows|]; [|done]. eauto.
Qed.

Lemma fetch_table_err table c e :
  statement_error fault (pending c) table = Some e →
  fetch_table fault table c = (log_event (EvExecute table) c, Raise e).
Proof.
  unfold statement_error, fetch_table. intros H.
  destruct (fault table); [by simplify_eq|].
  destruct (pending c !! table); by simplify_eq.
Qed.

Lemma statement_error_insert_ne db table other rows :
  table ≠ other →
  statement_error fault (<[other := rows]> db) table
  = statement_error fault db table.
Proof. intros. unfold statement_error. by rewrite lookup_insert_ne. Qed.

Lemma execute_delete_ok table cutoff c :
  statement_error fault (pending c) table = None →
  ∃ rows, pending c !! table = Some rows ∧
    execute_delete fault table cutoff c =
      ({| committed := committed c;
          pending := <[table := kept_rows cutoff rows]> (pending c);
          trace := trace c ++ [EvExecute table] |},
       Ok (gone_count cutoff rows)).
Proof.
  intros H. destruct (fetch_table_ok _ _ H) as (rows & Hrows & Hf).
  exists rows. split; [done|].
  unfold execute_delete, conn_bind. by rewrite Hf.
Qed.

Lemma execute_delete_err table cutoff c e :
  statement_error fault (pending c) table = Some e →
  execute_delete fault table cutoff c
  = (log_event (EvExecute table) c, Raise e).
Proof.
  intros H. unfold execute_delete, conn_bind.
  by rewrite (fetch_table_err _ _ _ H).
Qed.

Lemma delete_loop_app cutoff ts1 ts2 stats c :
  delete_loop fault (ts1 ++ ts2) cutoff stats c =
  match delete_loop fault ts1 cutoff stats c with
  | (c', Ok stats') => delete_loop fault ts2 cutoff stats' c'
  | (c', Raise e) => (c', Raise e)
  end.
Proof.
  revert stats c. induction ts1 as [|t ts1 IH]; intros stats c; [done|].
  simpl. unfold conn_bind.
  destruct (execute_delete fault t cutoff c) as [c1 [n|e]]; [apply IH|done].
Qed.

(** The loop over tables that all accept their statement. *)
Lemma delete_loop_ok cutoff ts :
  NoDup ts → ∀ stats c,
  (∀ t, t ∈ ts → statement_error fault (pending c) t = None) →
  ∃ c' stats',
    delete_loop fault ts cutoff stats c = (c', Ok stats') ∧
    committed c' = committed c ∧
    trace c' = trace c ++ (EvExecute <$> ts) ∧
    (∀ t, pending c' !! t =
          if decide (t ∈ ts) then kept_rows cutoff <$> pending c !! t
          else pending c !! t) ∧
    (∀ t, stats' !! t =
          if decide (t ∈ ts) then gone_count cutoff <$> pending c !! t
          else stats !! t).
Proof.
  induction 1 as [|t ts Hnotin Hnodup IH]; intros stats c Hok.
  - exists c, stats. simpl. rewrite app_nil_r.
    split_and!; try done; intros t; by rewrite decide_False by apply not_elem_of_nil.
  - destruct (execute_delete_ok t cutoff c) as (rows & Hrows & Hexec);
      [apply Hok; by left|].
    set (c1 := {| committed := committed c;
                  pending := <[t := kept_rows cutoff rows]> (pending c);
                  trace := trace c ++ [EvExecute t] |}) in *.
    destruct (IH (<[t := gone_count cutoff rows]> stats) c1)
      as (c' & stats' & Hloop & Hcom & Htr & Hpend & Hstats).
    { intros u Hu. simpl. rewrite statement_error_insert_ne by congruence.
      apply Hok. by right. }
    exists c', stats'. simpl. unfold conn_bind. rewrite Hexec.
    split_and!; [done|done| |intros u|intros u].
    + rewrite Htr. simpl. by rewrite <- app_assoc.
    + rewrite Hpend. simpl. destruct (decide (u = t)) as [->|Hne].
      * rewrite decide_False by done. rewrite decide_True by left.
        by rewrite lookup_insert_eq, Hrows.
      * rewrite lookup_insert_ne by done.
        destruct (decide (u ∈ ts)).
        -- by rewrite decide_True by (by right).
        -- by rewrite decide_False by (by apply not_elem_of_cons).
    + rewrite Hstats. simpl. destruct (decide (u = t)) as [->|Hne].
      * rewrite decide_False by done. rewrite decide_True by left.
        by rewrite lookup_insert_eq, Hrows.
      * destruct (decide (u ∈ ts)).
        -- rewrite decide_True by (by right).
           by rewrite lookup_insert_ne by done.
        -- rewrite decide_False by (by apply not_elem_of_cons).
           by rewrite lookup_insert_ne by done.
Qed.

(** The loop stops at the first table that refuses its statement. *)
Lemma delete_loop_fail cutoff pre t post e stats c :
  NoDup (pre ++ t :: post) →
  (∀ u, u ∈ pre → statement_error fault (pending c) u = None) →
  statement_error fault (pending c) t = Some e →
  ∃ c', delete_loop fault (pre ++ t :: post) cutoff stats c = (c', Raise e) ∧
        committed c' = committed c ∧
        trace c' = trace c ++ (EvExecute <$> pre) ++ [EvExecute t].
Proof.
  intros Hnodup Hpre Ht.
  apply NoDup_app in Hnodup as (Hnd1 & Hdisj & _).
  destruct (delete_loop_ok cutoff pre Hnd1 stats c Hpre)
    as (c1 & stats1 & Hloop & Hcom & Htr & Hpend & _).
  rewrite delete_loop_app, Hloop. simpl. unfold conn_bind.
  rewrite (execute_delete_err t cutoff c1 e).
  - eexists. split_and!; [done|done|]. simpl. by rewrite Htr, <- app_assoc.
  - revert Ht. unfold statement_error. rewrite Hpend.
    rewrite decide_False; [done|]. intros Hin. apply (Hdisj t Hin). by left.
Qed.

Lemma NoDup_tables : NoDup tables.
Proof.
  unfold tables.
  repeat (apply NoDup_cons_2; [by apply (bool_decide_unpack _)|]).
  apply NoDup_nil_2.
Qed.

(** [run] when every table accepts its statement. *)
Lemma run_ok now days db cutoff :
  cutoff_date now days = Ok cutoff →
  (∀ t, t ∈ tables → statement_error fault db t = None) →
  ∃ db' stats,
    run fault now days db
    = (db', (EvExecute <$> tables) ++ [EvCommit; EvClose], Ok stats) ∧
    (∀ t, db' !! t = if decide (t ∈ tables) then kept_rows cutoff <$> db !! t
                     else db !! t) ∧
    (∀ t, stats !! t = if decide (t ∈ tables) then gone_count cutoff <$> db !! t
                       else None).
Proof.
  intros Hcut Hok. unfold run, with_connect, conn_bind. rewrite Hcut.
  destruct (delete_loop_ok cutoff tables NoDup_tables ∅
              {| committed := db; pending := db; trace := [] |} Hok)
    as (c' & stats' & Hloop & Hcom & Htr & Hpend & Hstats).
  rewrite Hloop. simpl. exists (pending c'), stats'.
  split_and!; [|done|].
  - by rewrite Htr.
  - intros t. rewrite Hstats. by rewrite lookup_empty.
Qed.

(** [run] when some table refuses its statement. *)
Lemma run_fail now days db cutoff pre t post e :
  cutoff_date now days = Ok cutoff →
  tables = pre ++ t :: post →
  (∀ u, u ∈ pre → statement_error fault db u = None) →
  statement_error fault db t = Some e →
  run fault now days db
  = (db, (EvExecute <$> pre) ++ [EvExecute t; EvClose], Raise e).
Proof.
  intros Hcut Htab Hpre Ht. unfold run, with_connect, conn_bind.
  rewrite Hcut, Htab.
  destruct (delete_loop_fail cutoff pre t post e ∅
              {| committed := db; pending := db; trace := [] |})
    as (c' & Hloop & Hcom & Htr); [|done|done|].
  { rewrite <- Htab. apply NoDup_tables. }
  rewrite Hloop, Hcom, Htr. simpl. by rewrite <- !app_assoc.
Qed.

(** [run] returns only when the cut-off could be computed and no table
    refused its statement. *)
Lemma run_ok_inv now days db db' tr stats :
  run fault now days db = (db', tr, Ok stats) →
  ∃ cutoff, cutoff_date now days = Ok cutoff ∧
            ∀ t, t ∈ tables → statement_error fault db t = None.
Proof.
  intros Hrun. destruct (cutoff_date now days) as [cutoff|e] eqn:Hcut.
  2:{ unfold run in Hrun. by rewrite Hcut in Hrun. }
  exists cutoff. split; [done|].
  destruct (first_failure (λ t, statement_error fault db t = None) tables)
    as [Hall|(pre & t & post & Htab & Hpre & Ht)].
  - intros t Ht. by eapply Forall_forall in Hall.
  - destruct (statement_error fault db t) as [e|] eqn:He; [|done].
    rewrite (run_fail now days db cutoff pre t post e) in Hrun; try done.
    intros u Hu. by eapply Forall_forall in Hpre.
Qed.

End executor.

(** ** Claims about [PrefectCleanup.run] *)

(** C1. When [run(d)] returns, with [cutoff = now - d] taken at call time:
    no row left in any of the eight tables has [created < cutoff]; every row
    of those tables with [created >= cutoff] is still there; each table holds
    exactly the rows the WHERE clause spares, and the returned mapping gives,
    for each of the eight tables and for nothing else, the number of rows
    removed from it. *)
Theorem run_retention fault now days db db' tr stats :
  run fault now days db = (db', tr, Ok stats) →
  let cutoff := now - days * us_per_day in
  (∀ t rows' r ts, t ∈ tables → db' !! t = Some rows' → r ∈ rows' →
                   created r = Some ts → cutoff ≤ ts) ∧
  (∀ t rows r ts, t ∈ tables → db !! t = Some rows → r ∈ rows →
                  created r = Some ts → cutoff ≤ ts →
                  ∃ rows', db' !! t = Some rows' ∧ r ∈ rows') ∧
  (∀ t, t ∈ tables →
        ∃ rows rows', db !! t = Some rows ∧ db' !! t = Some rows' ∧
                      rows' = kept_rows cutoff rows ∧
                      stats !! t = Some (Z.of_nat (length rows)
                                         - Z.of_nat (length rows'))) ∧
  (∀ t, t ∉ tables → stats !! t = None ∧ db' !! t = db !! t).
Proof.
  intros Hrun cutoff.
  destruct (run_ok_inv _ _ _ _ _ _ _ Hrun) as (cutoff' & Hcut & Hok).
  assert (cutoff' = cutoff) as -> by by apply cutoff_date_value.
  destruct (run_ok fault now days db cutoff Hcut Hok)
    as (db1 & stats1 & Hrun1 & Hdb & Hstats).
  rewrite Hrun in Hrun1. simplify_eq.
  assert (Hexists : ∀ t, t ∈ tables → is_Some (db !! t)).
  { intros t Ht. specialize (Hok t Ht). unfold statement_error in Hok.
    destruct (fault t); [done|]. destruct (db !! t); [eauto|done]. }
  split_and!.
  - intros t rows' r ts Ht Hrows' Hr Hts.
    rewrite Hdb, decide_True in Hrows' by done.
    destruct (db !! t) as [rows|]; simplify_eq/=.
    apply elem_of_kept_rows in Hr as [_ Hr].
    destruct (Z.le_gt_cases cutoff ts) as [|Hlt]; [done|].
    assert (created_before cutoff r = true); [|congruence].
    apply created_before_spec. exists ts. split; [done|lia].
  - intros t rows r ts Ht Hrows Hr Hts Hle.
    exists (kept_rows cutoff rows). rewrite Hdb, decide_True, Hrows by done.
    split; [done|]. apply elem_of_kept_rows. split; [done|].
    destruct (created_before cutoff r) eqn:E; [|done].
    apply created_before_spec in E as (ts' & ? & ?). simplify_eq. lia.
  - intros t Ht. destruct (Hexists t Ht) as [rows Hrows].
    exists rows, (kept_rows cutoff rows).
    rewrite Hdb, Hstats, !decide_True, Hrows by done. simpl.
    by rewrite gone_count_length.
  - intros t Ht. by rewrite Hdb, Hstats, !decide_False.
Qed.

(** The scenario of C1: [run(days=30)] on the sample database removes the
    60-day row, keeps the 10-day row and reports 1 for [log], 0 elsewhere. *)
Lemma run_retention_scenario :
  run no_fault sample_now 30 sample_db
  = (<["log" := [new_log]]> empty_schema,
     (EvExecute <$> tables) ++ [EvCommit; EvClose],
     Ok (<["log" := 1]> (list_to_map ((λ t, (t, 0)) <$> tables)))) ∧
  (∀ t, t ∈ tables →
        ∃ rows rows',
          sample_db !! t = Some rows ∧
          (<["log" := [new_log]]> empty_schema : database) !! t = Some rows' ∧
          rows' = kept_rows (sample_now - 30 * us_per_day) rows ∧
          (<["log" := 1]> (list_to_map ((λ t, (t, 0)) <$> tables)) : gmap string Z)
            !! t = Some (Z.of_nat (length rows) - Z.of_nat (length rows'))).
Proof.
  assert (Hrun : run no_fault sample_now 30 sample_db
    = (<["log" := [new_log]]> empty_schema,
       (EvExecute <$> tables) ++ [EvCommit; EvClose],
       Ok (<["log" := 1]> (list_to_map ((λ t, (t, 0)) <$> tables)))))
    by (vm_compute; reflexivity).
  split; [exact Hrun|].
  exact (proj1 (proj2 (proj2 (run_retention _ _ _ _ _ _ _ Hrun)))).
Defined.

(** C2. [run(d)] is all-or-nothing. Once the cut-off is computed: if every
    table accepts its DELETE, the engine sees the eight deletes in order,
    then one commit, then the close, and the database the call leaves has
    all eight deletions in it: each of the eight tables holds exactly its
    rows that are not older than the cut-off, every other table is as it
    was, and the returned counts are the numbers of rows removed; if some
    table's DELETE raises, [run] raises that very exception, no commit was
    sent, and the database is what it was before the call, whatever the
    earlier deletes of the same call removed. Conversely [run] raises only
    what a DELETE raised. *)
Theorem run_all_or_nothing fault now days db cutoff :
  cutoff_date now days = Ok cutoff →
  ((∀ t, t ∈ tables → statement_error fault db t = None) →
   ∃ db' stats,
     run fault now days db
     = (db', (EvExecute <$> tables) ++ [EvCommit; EvClose], Ok stats) ∧
     (∀ t, db' !! t = if decide (t ∈ tables)
                      then kept_rows cutoff <$> db !! t else db !! t) ∧
     (∀ t, stats !! t = if decide (t ∈ tables)
                        then gone_count cutoff <$> db !! t else None)) ∧
  (∀ pre t post e,
     tables = pre ++ t :: post →
     (∀ u, u ∈ pre → statement_error fault db u = None) →
     statement_error fault db t = Some e →
     run fault now days db
     = (db, (EvExecute <$> pre) ++ [EvExecute t; EvClose], Raise e)) ∧
  (∀ db' tr e,
     run fault now days db = (db', tr, Raise e) →
     db' = db ∧ (EvCommit ∉ tr) ∧
     ∃ t, t ∈ tables ∧ statement_error fault db t = Some e).
Proof.
  intros Hcut. split_and!.
  - intros Hok. exact (run_ok fault now days db cutoff Hcut Hok).
  - intros pre t post e. by apply run_fail with cutoff.
  - intros db' tr e Hrun.
    destruct (first_failure (λ t, statement_error fault db t = None) tables)
      as [Hall|(pre & t & post & Htab & Hpre & Ht)].
    + destruct (run_ok fault now days db cutoff Hcut) as (? & ? & Hrun' & _).
      { intros t Ht. by eapply Forall_forall in Hall. }
      congruence.
    + destruct (statement_error fault db t) as [e'|] eqn:He; [|done].
      rewrite (run_fail fault now days db cutoff pre t post e') in Hrun;
        try done.
      2:{ intros u Hu. by eapply Forall_forall in Hpre. }
      simplify_eq. split_and!; [done| |].
      * rewrite elem_of_app, list_elem_of_fmap.
        intros [(u & ? & _)|Hin]; [done|].
        apply elem_of_cons in Hin as [?|Hin]; [done|].
        by apply list_elem_of_singleton in Hin.
      * exists t. split; [|done]. rewrite Htab.
        apply elem_of_app. right. by left.
Qed.

(** On the database that lacks [flow_run], the first four deletes go
    through, the fifth raises, and nothing is removed. *)
Lemma run_all_or_nothing_legacy :
  cutoff_date sample_now 30 = Ok (sample_now - 30 * us_per_day) ∧
  run no_fault sample_now 30 legacy_db
  = (legacy_db,
     [EvExecute "log"; EvExecute "task_run_state"; EvExecute "task_run";
      EvExecute "flow_run_state"; EvExecute "flow_run"; EvClose],
     Raise (no_such_table "flow_run")).
Proof.
  assert (Hcut : cutoff_date sample_now 30 = Ok (sample_now - 30 * us_per_day))
    by (vm_compute; reflexivity).
  split; [exact Hcut|].
  refine (proj1 (proj2 (run_all_or_nothing no_fault _ _ legacy_db _ Hcut))
            ["log"; "task_run_state"; "task_run"; "flow_run_state"]
            "flow_run" ["event_resources"; "events"; "artifact"]
            (no_such_table "flow_run") eq_refl _ _).
  - intros u Hu.
    repeat (apply elem_of_cons in Hu as [->|Hu]; [by vm_compute|]).
    by apply elem_of_nil in Hu.
  - by vm_compute.
Defined.

(** C4. [run(d)] is idempotent for a fixed clock: when a first call returns,
    a second call with the same [d] on the database it left returns as well,
    reports zero deleted rows for each of the eight tables, and leaves that
    database as it is. *)
Theorem run_idempotent fault now days db db1 tr1 stats1 :
  run fault now days db = (db1, tr1, Ok stats1) →
  ∃ stats2,
    run fault now days db1 = (db1, tr1, Ok stats2) ∧
    (∀ t, t ∈ tables → stats2 !! t = Some 0) ∧
    (∀ t, t ∉ tables → stats2 !! t = None).
Proof.
  intros Hrun.
  destruct (run_ok_inv _ _ _ _ _ _ _ Hrun) as (cutoff & Hcut & Hok).
  destruct (run_ok fault now days db cutoff Hcut Hok)
    as (db1' & stats1' & Hrun1 & Hdb1 & _).
  rewrite Hrun in Hrun1. simplify_eq.
  assert (Hok1 : ∀ t, t ∈ tables → statement_error fault db1' t = None).
  { intros t Ht. specialize (Hok t Ht). unfold statement_error in *.
    destruct (fault t); [done|]. rewrite Hdb1, decide_True by done.
    by destruct (db !! t). }
  destruct (run_ok fault now days db1' cutoff Hcut Hok1)
    as (db2 & stats2 & Hrun2 & Hdb2 & Hstats2).
  assert (db2 = db1') as ->.
  { apply map_eq. intros t. rewrite Hdb2, Hdb1.
    destruct (decide (t ∈ tables)); [|done].
    destruct (db !! t); [|done]. simpl. by rewrite kept_rows_idemp. }
  exists stats2. split_and!; [done| |].
  - intros t Ht. rewrite Hstats2, Hdb1, !decide_True by done.
    specialize (Hok t Ht). unfold statement_error in Hok.
    destruct (fault t); [done|]. destruct (db !! t); [|done].
    simpl. by rewrite gone_count_kept_rows.
  - intros t Ht. by rewrite Hstats2, decide_False.
Qed.

(** Running the sample scenario a second time deletes nothing. *)
Lemma run_idempotent_scenario :
  ∃ stats2,
    run no_fault sample_now 30 (<["log" := [new_log]]> empty_schema)
    = (<["log" := [new_log]]> empty_schema,
       (EvExecute <$> tables) ++ [EvCommit; EvClose], Ok stats2) ∧
    (∀ t, t ∈ tables → stats2 !! t = Some 0) ∧
    (∀ t, t ∉ tables → stats2 !! t = None).
Proof.
  apply (run_idempotent no_fault sample_now 30 sample_db _ _
           (<["log" := 1]> (list_to_map ((λ t, (t, 0)) <$> tables)))).
  vm_compute; reflexivity.
Defined.

(** ** The health reporter *)

Lemma sum_ints_empty : sum_ints ∅ = 0.
Proof. unfold sum_ints. by rewrite map_fold_empty. Qed.

Lemma sum_ints_insert name v (counts : gmap string pyval) :
  counts !! name = None →
  sum_ints (<[name := v]> counts) = int_of v + sum_ints counts.
Proof.
  intros Hfresh. unfold sum_ints. rewrite map_fold_insert_L; [|..|done].
  - by destruct v.
  - intros j1 j2 z1 z2 y _ _ _. destruct z1, z2; lia.
Qed.

Lemma length_many_rows n : 0 ≤ n → Z.of_nat (length (many_rows n)) = n.
Proof.
  intros Hn. unfold many_rows. rewrite length_fmap, length_seq. lia.
Qed.

Section reporter.
Variable fault : string → option string.

Lemma execute_count_spec table c :
  execute_count fault table c =
  (log_event (EvExecute table) c,
   match statement_error fault (pending c) table with
   | Some e => Raise e
   | None => Ok (table_count (pending c) table)
   end).
Proof.
  unfold execute_count, conn_bind, fetch_table, statement_error, table_count,
    conn_ret.
  destruct (fault table); [done|]. by destruct (pending c !! table).
Qed.

Lemma count_slot_spec table c :
  count_slot fault table c =
  (log_event (EvExecute table) c, Ok (slot_of fault (pending c) table)).
Proof.
  unfold count_slot, slot_of. rewrite execute_count_spec.
  by destruct (statement_error fault (pending c) table).
Qed.

Lemma count_loop_spec items : ∀ counts c,
  count_loop fault items counts c =
  ({| committed := committed c; pending := pending c;
      trace := trace c ++ (EvExecute <$> items.*2) |},
   Ok (foldl (λ m nt, <[nt.1 := slot_of fault (pending c) nt.2]> m)
             counts items)).
Proof.
  induction items as [|[name table] items IH]; intros counts c.
  - simpl. rewrite app_nil_r. by destruct c.
  - simpl. unfold conn_bind. rewrite count_slot_spec, IH. simpl.
    by rewrite <- app_assoc.
Qed.

(** The record [health_check] builds from the four slots. *)
Lemma health_check_spec now_iso db :
  let counts : gmap string pyval :=
    <["events" := slot_of fault db "events"]>
      (<["task_runs" := slot_of fault db "task_run"]>
         (<["flow_runs" := slot_of fault db "flow_run"]>
            (<["logs" := slot_of fault db "log"]> ∅))) in
  let total := int_of (slot_of fault db "log")
               + int_of (slot_of fault db "flow_run")
               + int_of (slot_of fault db "task_run")
               + int_of (slot_of fault db "events") in
  health_check fault now_iso db =
  (db,
   [EvExecute "log"; EvExecute "flow_run"; EvExecute "task_run";
    EvExecute "events"; EvClose],
   Ok {| timestamp := now_iso;
         table_counts := counts;
         total_records := total;
         needs_cleanup := 100000 <? total;
         is_large := 500000 <? total;
         recommendation := _get_recommendation total;
         status := if negb (100000 <? total) then "healthy"
                   else "attention_needed" |}).
Proof.
  intros counts total. unfold health_check, with_connect, conn_bind.
  rewrite count_loop_spec. simpl. fold counts.
  assert (sum_ints counts = total) as ->; [|done].
  unfold counts, total.
  rewrite !sum_ints_insert, sum_ints_empty by done. lia.
Qed.

End reporter.

Lemma db_of_size_log n : db_of_size n !! "log" = Some (many_rows n).
Proof. unfold db_of_size. by rewrite lookup_insert_eq. Qed.

Lemma db_of_size_other n t :
  t ≠ "log" → db_of_size n !! t = empty_schema !! t.
Proof. intros. unfold db_of_size. by rewrite lookup_insert_ne. Qed.

Lemma slot_of_db_of_size_log n :
  0 ≤ n → slot_of no_fault (db_of_size n) "log" = PyInt n.
Proof.
  intros. unfold slot_of, statement_error, table_count, no_fault.
  by rewrite db_of_size_log, length_many_rows.
Qed.

Lemma slot_of_db_of_size_other n t :
  t ≠ "log" → t ∈ tables → slot_of no_fault (db_of_size n) t = PyInt 0.
Proof.
  intros Hne Ht. unfold slot_of, statement_error, table_count, no_fault.
  rewrite db_of_size_other by done. revert Hne. unfold tables in Ht.
  repeat (apply elem_of_cons in Ht as [->|Ht]; [by intros|]).
  by apply elem_of_nil in Ht.
Qed.

(** What [health_check] answers on a database of [n] log rows. *)
Lemma health_check_db_of_size n :
  0 ≤ n →
  ∃ h, health_check no_fault sample_iso (db_of_size n)
       = (db_of_size n,
          [EvExecute "log"; EvExecute "flow_run"; EvExecute "task_run";
           EvExecute "events"; EvClose], Ok h) ∧
       total_records h = n ∧
       needs_cleanup h = (100000 <? n) ∧
       recommendation h = _get_recommendation n ∧
       status h = (if 100000 <? n then "attention_needed" else "healthy").
Proof.
  intros Hn. eexists. split; [apply health_check_spec|]. simpl.
  rewrite slot_of_db_of_size_log by done.
  rewrite !slot_of_db_of_size_other
    by (done || by apply (bool_decide_unpack _)).
  simpl. rewrite !Z.add_0_r. split_and!; try done.
  by destruct (100000 <? n).
Qed.

(** ** Claims about [DatabaseMonitor.health_check] *)

(** C3. At exactly 100,000 records the flag and the recommendation of one
    report disagree. On a database of 100,000 rows, all four counts read
    without error, [health_check] returns with [total_records] 100,000,
    [needs_cleanup] false and [status] "healthy", while the recommendation
    of the same report is already "Consider monthly cleanup": the flag is
    computed with [total_records > 100000], the tiers of
    [_get_recommendation] with [total_records < 100000]. *)
Theorem health_check_at_100000 :
  (∀ nt, nt ∈ monitored →
         statement_error no_fault (db_of_size 100000) nt.2 = None) ∧
  ∃ h, health_check no_fault sample_iso (db_of_size 100000)
       = (db_of_size 100000,
          [EvExecute "log"; EvExecute "flow_run"; EvExecute "task_run";
           EvExecute "events"; EvClose], Ok h) ∧
       total_records h = 100000 ∧
       needs_cleanup h = false ∧
       status h = "healthy" ∧
       recommendation h = "Consider monthly cleanup (30 days retention)" ∧
       _get_recommendation 99999 = "Database is growing but fine".
Proof.
  split.
  - intros nt Hnt. unfold monitored in Hnt. unfold statement_error, no_fault.
    apply elem_of_cons in Hnt as [->|Hnt]; [by rewrite db_of_size_log|].
    repeat (apply elem_of_cons in Hnt as [->|Hnt];
            [by rewrite db_of_size_other|]).
    by apply elem_of_nil in Hnt.
  - destruct (health_check_db_of_size 100000)
      as (h & Hh & Htot & Hneeds & Hrec & Hstatus); [lia|].
    exists h.
    split_and!; [exact Hh|exact Htot|exact Hneeds|exact Hstatus|exact Hrec|].
    reflexivity.
Qed.

(** C5. When none of the four COUNT queries fails, each slot of
    [table_counts] holds the size of its table and [total_records] is the sum
    of the four slots. *)
Theorem health_check_total fault now_iso db db' tr h :
  health_check fault now_iso db = (db', tr, Ok h) →
  (∀ nt, nt ∈ monitored → statement_error fault db nt.2 = None) →
  ∃ logs flow_runs task_runs events : Z,
    table_counts h !! "logs" = Some (PyInt logs) ∧
    table_counts h !! "flow_runs" = Some (PyInt flow_runs) ∧
    table_counts h !! "task_runs" = Some (PyInt task_runs) ∧
    table_counts h !! "events" = Some (PyInt events) ∧
    logs = table_count db "log" ∧ flow_runs = table_count db "flow_run" ∧
    task_runs = table_count db "task_run" ∧ events = table_count db "events" ∧
    total_records h = logs + flow_runs + task_runs + events.
Proof.
  rewrite health_check_spec. intros [= <- <- <-] Hok. simpl.
  assert (Hslot : ∀ nt, nt ∈ monitored →
            slot_of fault db nt.2 = PyInt (table_count db nt.2)).
  { intros nt Hnt. unfold slot_of. by rewrite (Hok nt Hnt). }
  pose proof (Hslot ("logs", "log")) as H1.
  pose proof (Hslot ("flow_runs", "flow_run")) as H2.
  pose proof (Hslot ("task_runs", "task_run")) as H3.
  pose proof (Hslot ("events", "events")) as H4.
  simpl in *. unfold monitored in *.
  rewrite H1, H2, H3, H4 by (by apply (bool_decide_unpack _)).
  eexists _, _, _, _. split_and!; try done.
Qed.

(** On the sample database the four counts are 2, 0, 0, 0 and the total 2. *)
Lemma health_check_total_sample :
  ∃ logs flow_runs task_runs events : Z,
    table_counts sample_health !! "logs" = Some (PyInt logs) ∧
    table_counts sample_health !! "flow_runs" = Some (PyInt flow_runs) ∧
    table_counts sample_health !! "task_runs" = Some (PyInt task_runs) ∧
    table_counts sample_health !! "events" = Some (PyInt events) ∧
    logs = table_count sample_db "log" ∧
    flow_runs = table_count sample_db "flow_run" ∧
    task_runs = table_count sample_db "task_run" ∧
    events = table_count sample_db "events" ∧
    total_records sample_health = logs + flow_runs + task_runs + events.
Proof.
  apply (health_check_total no_fault sample_iso sample_db sample_db
           [EvExecute "log"; EvExecute "flow_run"; EvExecute "task_run";
            EvExecute "events"; EvClose]).
  - vm_compute; reflexivity.
  - intros nt Hnt. unfold monitored in Hnt.
    repeat (apply elem_of_cons in Hnt as [->|Hnt]; [by vm_compute|]).
    by apply elem_of_nil in Hnt.
Defined.

(** C6. A COUNT that raises is caught for its table alone: whatever the
    engine refuses, [health_check] sends the four queries, returns a result
    and leaves the database alone; the slot of a table whose query raised
    holds "Error: " followed by the exception text, the slot of every other
    table holds its row count, and [total_records] adds up the tables that
    could be counted. *)
Theorem health_check_partial fault now_iso db :
  ∃ h,
    health_check fault now_iso db
    = (db, (EvExecute <$> monitored.*2) ++ [EvClose], Ok h) ∧
    (∀ name table, (name, table) ∈ monitored →
       table_counts h !! name =
       Some (match statement_error fault db table with
             | Some e => PyStr ("Error: " +:+ exn_str e)
             | None => PyInt (table_count db table)
             end)) ∧
    (∀ name, name ∉ monitored.*1 → table_counts h !! name = None) ∧
    total_records h = counted fault db "log" + counted fault db "flow_run"
                      + counted fault db "task_run" + counted fault db "events".
Proof.
  eexists. split; [apply health_check_spec|]. simpl. split_and!.
  - intros name table Hnt. unfold monitored in Hnt. fold (slot_of fault db table).
    repeat (apply elem_of_cons in Hnt as [[= -> ->]|Hnt];
            [by simplify_map_eq|]).
    by apply elem_of_nil in Hnt.
  - intros name Hname. simpl in Hname.
    rewrite !not_elem_of_cons in Hname. destruct Hname as (?&?&?&?&_).
    by rewrite !lookup_insert_ne, lookup_empty by done.
  - unfold counted, slot_of.
    by repeat destruct (statement_error fault db _).
Qed.

(** With [events] locked, its slot carries the error and the three other
    tables are still counted. *)
Lemma health_check_events_locked :
  ∃ h, health_check events_locked sample_iso sample_db
       = (sample_db,
          [EvExecute "log"; EvExecute "flow_run"; EvExecute "task_run";
           EvExecute "events"; EvClose], Ok h) ∧
       table_counts h !! "logs" = Some (PyInt 2) ∧
       table_counts h !! "events" = Some (PyStr "Error: database is locked") ∧
       total_records h = 2.
Proof.
  destruct (health_check_partial events_locked sample_iso sample_db)
    as (h & Hh & Hslots & _ & Htotal).
  exists h. split_and!; [exact Hh|..].
  - by rewrite (Hslots "logs" "log") by (by apply (bool_decide_unpack _)).
  - by rewrite (Hslots "events" "events") by (by apply (bool_decide_unpack _)).
  - rewrite Htotal. reflexivity.
Defined.

(** ** Sorting, slicing and text: facts about the built-ins *)

Section sorted_reverse_facts.
Context {A K : Type} (le : K → K → bool) (key : A → K).
Hypothesis le_total : ∀ a b, le a b = true ∨ le b a = true.
Hypothesis le_trans : ∀ a b c, le a b = true → le b c = true → le a c = true.

(** [x] stands before [y] in a list sorted in reverse. *)
Let before (x y : A) : Prop := le (key y) (key x) = true.

Lemma insert_desc_perm x l : insert_desc le key x l ≡ₚ x :: l.
Proof.
  induction l as [|y l IH]; simpl; [done|].
  destruct (le (key y) (key x)); [done|].
  rewrite IH. apply Permutation_swap.
Qed.

Lemma sorted_reverse_perm l : sorted_reverse le key l ≡ₚ l.
Proof.
  induction l as [|x l IH]; simpl; [done|].
  fold (sorted_reverse le key l). by rewrite insert_desc_perm, IH.
Qed.

Lemma sorted_reverse_length l : length (sorted_reverse le key l) = length l.
Proof. by rewrite sorted_reverse_perm. Qed.

Lemma insert_desc_sorted x l :
  StronglySorted before l → StronglySorted before (insert_desc le key x l).
Proof.
  induction 1 as [|y l Hl IH Hy]; simpl.
  - repeat constructor.
  - destruct (le (key y) (key x)) eqn:E.
    + constructor; [by constructor|]. constructor; [done|].
      eapply Forall_impl; [exact Hy|]. intros z Hz. unfold before in *.
      by eapply le_trans.
    + constructor; [done|]. rewrite insert_desc_perm. constructor; [|done].
      unfold before. destruct (le_total (key x) (key y)); [done|congruence].
Qed.

Lemma sorted_reverse_sorted l :
  StronglySorted before (sorted_reverse le key l).
Proof.
  induction l as [|x l IH]; simpl; [constructor|].
  by apply insert_desc_sorted.
Qed.

(** Whatever stands in the first [m] places has a key at least as large as
    whatever stands after them. *)
Lemma sorted_reverse_take_drop l m x y :
  x ∈ take m (sorted_reverse le key l) →
  y ∈ drop m (sorted_reverse le key l) →
  le (key y) (key x) = true.
Proof.
  intros Hx Hy. pose proof (sorted_reverse_sorted l) as Hs.
  rewrite <- (take_drop m (sorted_reverse le key l)) in Hs.
  apply StronglySorted_app in Hs as (Hs & _ & _). by apply Hs.
Qed.

End sorted_reverse_facts.

Lemma slice_from_nonneg {A} (k : Z) (l : list A) :
  0 ≤ k → slice_from k l = drop (Z.to_nat k) l.
Proof.
  intros Hk. unfold slice_from.
  destruct (k <? 0) eqn:E; [apply Z.ltb_lt in E; lia|].
  destruct (Z.le_gt_cases k (Z.of_nat (length l))).
  - by rewrite Z.min_l.
  - rewrite Z.min_r, Nat2Z.id by lia. rewrite !drop_ge; [done|lia..].
Qed.

Lemma slice_from_neg {A} (k : Z) (l : list A) :
  k < 0 →
  slice_from k l = drop (length l - Nat.min (Z.to_nat (- k)) (length l)) l.
Proof.
  intros Hk. unfold slice_from.
  destruct (k <? 0) eqn:E; [|apply Z.ltb_ge in E; lia].
  f_equal. lia.
Qed.

Lemma substring_all t : String.substring 0 (String.length t) t = t.
Proof. induction t as [|c t IH]; simpl; [done|]. by rewrite IH. Qed.

Lemma substring_app_r s t :
  String.substring (String.length s) (String.length t) (s +:+ t) = t.
Proof. induction s as [|c s IH]; simpl; [apply substring_all|done]. Qed.

Lemma string_length_app s t :
  String.length (s +:+ t) = (String.length s + String.length t)%nat.
Proof.
  induction s as [|c s IH]; [done|].
  change (S (String.length (s +:+ t))
          = S (String.length s + String.length t)). by rewrite IH.
Qed.

Lemma string_app_assoc s t u : (s +:+ t) +:+ u = s +:+ t +:+ u.
Proof.
  induction s as [|c s IH]; [done|].
  change (String c ((s +:+ t) +:+ u) = String c (s +:+ t +:+ u)).
  by rewrite IH.
Qed.

Lemma endswith_app s suffix : endswith suffix (s +:+ suffix) = true.
Proof.
  unfold endswith. rewrite string_length_app.
  replace (String.length s + String.length suffix - String.length suffix)%nat
    with (String.length s) by lia.
  rewrite substring_app_r, String.eqb_refl, andb_true_r.
  apply Nat.leb_le. lia.
Qed.

Lemma path_join_backup_suffix dir name :
  endswith ".backup" (path_join dir (name +:+ ".backup")) = true.
Proof.
  unfold path_join. destruct (String.prefix "/" (name +:+ ".backup")).
  - apply endswith_app.
  - rewrite <- !string_app_assoc. apply endswith_app.
Qed.

(** ** The backup directory *)

Lemma List_filter_sublist {A} (f : A → bool) (l : list A) :
  sublist (List.filter f l) l.
Proof.
  induction l as [|x l IH]; simpl; [done|].
  destruct (f x); by constructor.
Qed.

Lemma elem_of_glob_backup dir (fs : filesystem) p f :
  (p, f) ∈ glob_backup dir fs ↔ fs !! p = Some f ∧ is_backup_in dir p = true.
Proof.
  unfold glob_backup. rewrite list_elem_of_In, filter_In, <- list_elem_of_In.
  by rewrite elem_of_map_to_list.
Qed.

Lemma NoDup_glob_backup dir (fs : filesystem) : NoDup (glob_backup dir fs).*1.
Proof.
  apply (sublist_NoDup _ (map_to_list fs).*1);
    [apply NoDup_fst_map_to_list|].
  unfold glob_backup. apply fmap_sublist, List_filter_sublist.
Qed.

Lemma Z_leb_total a b : (a <=? b) = true ∨ (b <=? a) = true.
Proof. rewrite !Z.leb_le. lia. Qed.

Lemma Z_leb_trans a b c : (a <=? b) = true → (b <=? c) = true → (a <=? c) = true.
Proof. rewrite !Z.leb_le. lia. Qed.

(** The loop removes each listed file and counts it, provided the files are
    there and listed once. *)
Lemma unlink_loop_spec files :
  NoDup files.*1 → ∀ (fs : filesystem) d,
  (∀ pf, pf ∈ files → fs !! pf.1 = Some pf.2) →
  ∃ fs', unlink_loop files fs d = (fs', Ok (d + Z.of_nat (length files))) ∧
         ∀ p, fs' !! p = if decide (p ∈ files.*1) then None else fs !! p.
Proof.
  induction files as [|pf files IH]; intros Hnd fs d Hfs.
  - exists fs. split; [simpl; by rewrite Z.add_0_r|]. intros p.
    destruct (decide _) as [H|]; [by apply elem_of_nil in H|done].
  - rewrite fmap_cons in Hnd. apply NoDup_cons in Hnd as [Hnotin Hnd].
    simpl. unfold unlink. rewrite (Hfs pf) by left.
    destruct (IH Hnd (delete pf.1 fs) (d + 1)) as (fs' & Hloop & Hfs').
    { intros q Hq. rewrite lookup_delete_ne; [apply Hfs; by right|].
      intros Heq. apply Hnotin. rewrite Heq. by apply list_elem_of_fmap_2. }
    exists fs'. split.
    + rewrite Hloop. do 2 f_equal. lia.
    + intros p. rewrite Hfs'. destruct (decide (p = pf.1)) as [->|Hne].
      * rewrite decide_False by done. rewrite decide_True by left.
        apply lookup_delete_eq.
      * rewrite lookup_delete_ne by done.
        destruct (decide (p ∈ files.*1)).
        -- by rewrite decide_True by (by right).
        -- by rewrite decide_False by (by apply not_elem_of_cons).
Qed.

Lemma newest_first_perm dir fs : newest_first dir fs ≡ₚ glob_backup dir fs.
Proof. apply sorted_reverse_perm. Qed.

Lemma NoDup_newest_first dir fs : NoDup (newest_first dir fs).*1.
Proof. rewrite newest_first_perm. apply NoDup_glob_backup. Qed.

Lemma elem_of_newest_first dir fs p f :
  (p, f) ∈ newest_first dir fs ↔ fs !! p = Some f ∧ is_backup_in dir p = true.
Proof. by rewrite newest_first_perm, elem_of_glob_backup. Qed.

(** Unlinking everything after the first [m] backups, newest first, leaves
    those [m] backups and every file that is not a backup. *)
Lemma prune_after dir fs (m : nat) :
  ∃ fs',
    unlink_loop (drop m (newest_first dir fs)) fs 0
    = (fs', Ok (Z.of_nat (length (glob_backup dir fs) - m))) ∧
    glob_backup dir fs' ≡ₚ take m (newest_first dir fs) ∧
    (∀ p, is_backup_in dir p = false → fs' !! p = fs !! p).
Proof.
  set (all := newest_first dir fs).
  assert (Hnd : NoDup all.*1) by apply NoDup_newest_first.
  rewrite <- (take_drop m all), fmap_app in Hnd.
  apply NoDup_app in Hnd as (Hnd_take & Hdisj & Hnd_drop).
  destruct (unlink_loop_spec (drop m all) Hnd_drop fs 0) as (fs' & Hloop & Hfs').
  { intros [p f] Hpf. simpl.
    apply (elem_of_newest_first dir). fold all.
    rewrite <- (take_drop m all). apply elem_of_app. by right. }
  exists fs'. split_and!.
  - rewrite Hloop, length_drop. unfold all.
    by rewrite (Permutation_length (newest_first_perm dir fs)).
  - apply NoDup_Permutation.
    + eapply NoDup_fmap_1, NoDup_glob_backup.
    + eapply NoDup_fmap_1, Hnd_take.
    + intros [p f]. rewrite elem_of_glob_backup, Hfs'. split.
      * intros [Hp Hb]. destruct (decide (p ∈ (drop m all).*1)); [done|].
        assert (Hin : (p, f) ∈ all) by by apply elem_of_newest_first.
        rewrite <- (take_drop m all) in Hin.
        apply elem_of_app in Hin as [Hin|Hin]; [done|].
        by apply (list_elem_of_fmap_2 fst) in Hin.
      * intros Hin. rewrite decide_False.
        -- apply elem_of_newest_first. rewrite <- (take_drop m (newest_first _ _)).
           apply elem_of_app. by left.
        -- apply (Hdisj p). by apply (list_elem_of_fmap_2 fst) in Hin.
  - intros p Hp. rewrite Hfs'. rewrite decide_False; [done|].
    intros ((q & f) & -> & Hq)%list_elem_of_fmap. simpl in Hp.
    assert (Hin : (q, f) ∈ all).
    { rewrite <- (take_drop m all). apply elem_of_app. by right. }
    apply elem_of_newest_first in Hin as [_ Hin]. congruence.
Qed.

(** After such a pruning every backup kept is at least as recent as every
    backup removed. *)
Lemma prune_after_recent dir fs (m : nat) (fs' : filesystem) kept gone :
  glob_backup dir fs' ≡ₚ take m (newest_first dir fs) →
  kept ∈ glob_backup dir fs' →
  gone ∈ glob_backup dir fs → gone ∉ glob_backup dir fs' →
  st_ctime gone.2 ≤ st_ctime kept.2.
Proof.
  intros Hperm Hkept Hgone Hnot. rewrite Hperm in Hkept, Hnot.
  rewrite <- newest_first_perm in Hgone.
  rewrite <- (take_drop m (newest_first dir fs)) in Hgone.
  apply elem_of_app in Hgone as [Hgone|Hgone]; [done|].
  apply Z.leb_le.
  eapply (sorted_reverse_take_drop Z.leb (λ pf : string * file, st_ctime pf.2)
            Z_leb_total Z_leb_trans); [exact Hkept|exact Hgone].
Qed.

(** ** Claims about [BackupHandler.cleanup_old_backups] *)

(** C7. For [keep_count = k >= 0] and [n] backup files in the directory,
    [cleanup_old_backups] returns [max(0, n - k)], leaves exactly
    [min(k, n)] backup files, each of them a backup that was there before
    and at least as recent as every backup it removed, and touches no file
    that is not a backup of the directory. *)
Theorem cleanup_old_backups_keeps_newest self k fs :
  0 ≤ k →
  let existing := glob_backup (backup_dir self) fs in
  let n := Z.of_nat (length existing) in
  ∃ fs',
    cleanup_old_backups self k fs = (fs', Ok (Z.max 0 (n - k))) ∧
    Z.of_nat (length (glob_backup (backup_dir self) fs')) = Z.min k n ∧
    glob_backup (backup_dir self) fs'
      ≡ₚ take (Z.to_nat k) (newest_first (backup_dir self) fs) ∧
    (∀ kept gone,
       kept ∈ glob_backup (backup_dir self) fs' →
       gone ∈ existing → gone ∉ glob_backup (backup_dir self) fs' →
       st_ctime gone.2 ≤ st_ctime kept.2) ∧
    (∀ p, is_backup_in (backup_dir self) p = false → fs' !! p = fs !! p).
Proof.
  intros Hk existing n.
  destruct (prune_after (backup_dir self) fs (Z.to_nat k))
    as (fs' & Hloop & Hperm & Hother).
  exists fs'. split_and!.
  - unfold cleanup_old_backups. rewrite slice_from_nonneg by done.
    fold (newest_first (backup_dir self) fs). rewrite Hloop.
    do 2 f_equal. unfold n, existing. lia.
  - rewrite Hperm, length_take.
    rewrite (Permutation_length (newest_first_perm _ _)).
    unfold n, existing. lia.
  - done.
  - intros kept gone. by apply prune_after_recent with (Z.to_nat k).
  - done.
Qed.

(** Keeping one of the three sample backups removes the two older ones. *)
Lemma cleanup_old_backups_keep_one :
  ∃ fs',
    cleanup_old_backups sample_handler 1 sample_fs = (fs', Ok 2) ∧
    Z.of_nat (length (glob_backup "backups" fs')) = 1 ∧
    glob_backup "backups" fs'
      ≡ₚ [("backups/b.backup", sample_file "third" 30000000)] ∧
    fs' !! "backups/notes.txt" = sample_fs !! "backups/notes.txt".
Proof.
  destruct (cleanup_old_backups_keeps_newest sample_handler 1 sample_fs)
    as (fs' & Hrun & Hlen & Hperm & _ & Hother); [lia|].
  exists fs'. split_and!.
  - exact Hrun.
  - exact Hlen.
  - exact Hperm.
  - by apply Hother.
Defined.

(** C10. For [keep_count = k < 0] and [n] backup files, the slice
    [backup_files[k:]] holds the last [min(|k|, n)] files of the list sorted
    newest first: [cleanup_old_backups] removes exactly those, returns
    their number, and keeps the [n - min(|k|, n)] others, each at least as
    recent as every backup removed. *)
Theorem cleanup_old_backups_negative self k fs :
  k < 0 →
  let existing := glob_backup (backup_dir self) fs in
  let n := Z.of_nat (length existing) in
  ∃ fs',
    cleanup_old_backups self k fs = (fs', Ok (Z.min (- k) n)) ∧
    Z.of_nat (length (glob_backup (backup_dir self) fs')) = n - Z.min (- k) n ∧
    glob_backup (backup_dir self) fs'
      ≡ₚ take (Z.to_nat (n - Z.min (- k) n))
              (newest_first (backup_dir self) fs) ∧
    (∀ kept gone,
       kept ∈ glob_backup (backup_dir self) fs' →
       gone ∈ existing → gone ∉ glob_backup (backup_dir self) fs' →
       st_ctime gone.2 ≤ st_ctime kept.2) ∧
    (∀ p, is_backup_in (backup_dir self) p = false → fs' !! p = fs !! p).
Proof.
  intros Hk existing n.
  set (m := (length existing - Nat.min (Z.to_nat (- k)) (length existing))%nat).
  assert (Hm : Z.to_nat (n - Z.min (- k) n) = m) by (unfold m, n; lia).
  destruct (prune_after (backup_dir self) fs m)
    as (fs' & Hloop & Hperm & Hother).
  exists fs'. rewrite Hm. split_and!.
  - unfold cleanup_old_backups. rewrite slice_from_neg by done.
    fold (newest_first (backup_dir self) fs).
    rewrite (Permutation_length (newest_first_perm _ _)).
    fold existing. fold m. rewrite Hloop.
    do 2 f_equal. unfold m, n, existing. lia.
  - rewrite Hperm, length_take.
    rewrite (Permutation_length (newest_first_perm _ _)).
    fold existing. unfold m, n. lia.
  - done.
  - intros kept gone. by apply prune_after_recent with m.
  - done.
Qed.

(** With [keep_count = -1] the oldest of the three sample backups goes and
    the two newest stay. *)
Lemma cleanup_old_backups_minus_one :
  ∃ fs',
    cleanup_old_backups sample_handler (-1) sample_fs = (fs', Ok 1) ∧
    Z.of_nat (length (glob_backup "backups" fs')) = 2 ∧
    glob_backup "backups" fs'
      ≡ₚ [("backups/b.backup", sample_file "third" 30000000);
          ("backups/c.backup", sample_file "second" 20000000)].
Proof.
  destruct (cleanup_old_backups_negative sample_handler (-1) sample_fs)
    as (fs' & Hrun & Hlen & Hperm & _); [lia|].
  exists fs'. split_and!.
  - exact Hrun.
  - exact Hlen.
  - exact Hperm.
Defined.

(** ** Claims about [BackupHandler.create] *)

(** What [create] does for a handler on a SQLite URL, by what is found at
    [source_path]. *)
Lemma create_sqlite fromtimestamp pg_dump self now name fs :
  _is_sqlite self = true →
  create fromtimestamp pg_dump self now name fs
  = let backup_path := backup_path_at fromtimestamp self now name in
    match _backup_sqlite self now backup_path fs with
    | (fs', Ok _) => (fs', Ok backup_path)
    | (fs', Raise e) => (fs', Raise e)
    end.
Proof. intros Hsqlite. unfold create, backup_path_at. by rewrite Hsqlite. Qed.

Lemma path_exists_file (fs : filesystem) p f :
  fs !! p = Some f → path_exists fs p = true.
Proof. unfold path_exists. by intros ->. Qed.

(** A regular file that is not at the backup path is copied there. *)
Lemma create_sqlite_copies fromtimestamp pg_dump self now name fs src :
  _is_sqlite self = true →
  fs !! source_path self = Some src →
  source_path self ≠ backup_path_at fromtimestamp self now name →
  create fromtimestamp pg_dump self now name fs
  = (<[backup_path_at fromtimestamp self now name
       := {| content := content src; st_ctime := now |}]> fs,
     Ok (backup_path_at fromtimestamp self now name)).
Proof.
  intros Hsqlite Hsrc Hne. rewrite create_sqlite by done.
  unfold _backup_sqlite. cbn zeta.
  rewrite (path_exists_file _ _ _ Hsrc), Hsrc. cbn [negb].
  by apply String.eqb_neq in Hne as ->.
Qed.

(** A database file that is itself at the backup path is not copied. *)
Lemma create_sqlite_same_file fromtimestamp pg_dump self now name fs :
  _is_sqlite self = true →
  path_exists fs (source_path self) = true →
  source_path self = backup_path_at fromtimestamp self now name →
  create fromtimestamp pg_dump self now name fs
  = (fs, Raise (SameFileError
                  ("PosixPath('" +:+ source_path self +:+ "') and PosixPath('"
                   +:+ backup_path_at fromtimestamp self now name
                   +:+ "') are the same file"))).
Proof.
  intros Hsqlite Hex Heq. rewrite create_sqlite by done.
  unfold _backup_sqlite. cbn zeta. rewrite Hex. cbn [negb].
  by apply String.eqb_eq in Heq as ->.
Qed.



(** C8. The backup of a file-based database whose file exists is refused
    when the URL names a driver. The handler on
    [sqlite+aiosqlite:///data/prefect.db] is a SQLite one for [_is_sqlite],
    and [data/prefect.db] is there with its bytes; but [_backup_sqlite]
    removes the text [sqlite:///] where it stands, after [sqlite+aio], looks
    for [sqlite+aiodata/prefect.db], and [create] raises "Database file not
    found" for it: no backup is written and the file system is as it was. *)
Theorem create_async_url_not_found :
  _is_sqlite async_handler = true ∧
  sample_fs !! "data/prefect.db" = Some (sample_file "SQLite format 3" 1000000) ∧
  source_path async_handler = "sqlite+aiodata/prefect.db" ∧
  create sample_clock pg_dump_missing async_handler 43200000000 None sample_fs
  = (sample_fs,
     Raise (FileNotFoundError
        "Database file not found: sqlite+aiodata/prefect.db")).
Proof. split_and!; vm_compute; reflexivity. Qed.

(** ** Claims about [BackupHandler.list_backups] *)

Lemma String_leb_trans a b c :
  String.leb a b = true → String.leb b c = true → String.leb a c = true.
Proof.
  intros Hab Hbc. apply Is_true_true. change (String.le a c).
  trans b; by apply Is_true_true.
Qed.

Lemma insert_desc_fmap {A B K} (le : K → K → bool) (key : B → K) (f : A → B)
    (x : A) (l : list A) :
  insert_desc le key (f x) (f <$> l) = f <$> insert_desc le (key ∘ f) x l.
Proof.
  induction l as [|y l IH]; [done|].
  rewrite fmap_cons. simpl. destruct (le (key (f y)) (key (f x))); [done|].
  rewrite fmap_cons. f_equal. exact IH.
Qed.

Lemma sorted_reverse_fmap {A B K} (le : K → K → bool) (key : B → K) (f : A → B)
    (l : list A) :
  sorted_reverse le key (f <$> l) = f <$> sorted_reverse le (key ∘ f) l.
Proof.
  induction l as [|x l IH]; [done|].
  change (insert_desc le key (f x) (sorted_reverse le key (f <$> l))
          = f <$> insert_desc le (key ∘ f) x (sorted_reverse le (key ∘ f) l)).
  rewrite IH. apply insert_desc_fmap.
Qed.

Section listing.
Variable fromtimestamp : Z → datetime.

(** The text under which a backup is sorted. *)
Let created_text (pf : string * file) : string :=
  isoformat (fromtimestamp (st_ctime pf.2)).

Lemma entry_created_backup_entry pf :
  entry_created (backup_entry fromtimestamp pf) = created_text pf.
Proof. unfold entry_created, backup_entry. by rewrite lookup_insert_eq. Qed.

Lemma dom_backup_entry pf :
  dom (backup_entry fromtimestamp pf)
  = (list_to_set ["name"; "path"; "size_mb"; "created"] : gset string).
Proof.
  unfold backup_entry. rewrite !dom_insert_L, dom_empty_L. simpl.
  set_solver.
Qed.

(** The entries are those of the backups, sorted by their [created] text. *)
Lemma list_backups_sorted_files self fs :
  backups (list_backups fromtimestamp self fs)
  = backup_entry fromtimestamp
      <$> sorted_reverse String.leb created_text
            (glob_backup (backup_dir self) fs).
Proof.
  unfold list_backups. simpl. by rewrite sorted_reverse_fmap.
Qed.

(** Where the local time of an instant is rendered in a way that grows
    with the instant, sorting by the [created] text is sorting by
    [st_ctime]. *)
Lemma sorted_by_created_text_is_by_ctime dir fs :
  (∀ x y, x ∈ glob_backup dir fs → y ∈ glob_backup dir fs →
          st_ctime x.2 < st_ctime y.2 →
          String.ltb (created_text x) (created_text y) = true) →
  StronglySorted (λ x y : string * file, st_ctime y.2 ≤ st_ctime x.2)
    (sorted_reverse String.leb created_text (glob_backup dir fs)).
Proof.
  intros Hmono.
  pose proof (sorted_reverse_sorted String.leb created_text
                String.leb_total String_leb_trans (glob_backup dir fs)) as Hs.
  assert (Hin : ∀ x, x ∈ sorted_reverse String.leb created_text
                           (glob_backup dir fs) → x ∈ glob_backup dir fs).
  { intros x. by rewrite sorted_reverse_perm. }
  revert Hs Hin. generalize (sorted_reverse String.leb created_text
                               (glob_backup dir fs)).
  induction 1 as [|x l Hl IH Hx]; intros Hin; constructor.
  - apply IH. intros y Hy. apply Hin. by right.
  - apply Forall_forall. intros y Hy.
    destruct (Z.le_gt_cases (st_ctime y.2) (st_ctime x.2)) as [|Hlt]; [done|].
    exfalso. assert (Hxy : String.ltb (created_text x) (created_text y) = true).
    { apply Hmono; [apply Hin; by left|apply Hin; by right|lia]. }
    rewrite Forall_forall in Hx. specialize (Hx y Hy). simpl in Hx.
    unfold String.ltb, String.leb in *.
    rewrite String.compare_antisym in Hx.
    by destruct (String.compare (created_text x) (created_text y)).
Qed.

End listing.

(** C9, as the code has it. [list_backups()] returns a mapping with the
    backup directory, the number of backups and the list [backups]; that
    list holds one record for every backup file of the directory, each with
    exactly the fields [name], [path], [size_mb] and [created] (the stem of
    the file name, its path, its size in MiB rounded to two decimals, the
    ISO text of its [st_ctime] in local time). The records are those of the
    files taken newest first by creation time, [st_ctime], as long as among
    the backups of the directory a later creation time is shown as a later
    local time; nothing is said of the order across a step back of the
    local clock. *)
Theorem list_backups_newest_first fromtimestamp self fs :
  let listing := list_backups fromtimestamp self fs in
  let files := glob_backup (backup_dir self) fs in
  backup_directory listing = backup_dir self ∧
  total_backups listing = Z.of_nat (length files) ∧
  backups listing ≡ₚ backup_entry fromtimestamp <$> files ∧
  (∀ e, e ∈ backups listing →
        dom e = list_to_set ["name"; "path"; "size_mb"; "created"]) ∧
  (∀ p f, fs !! p = Some f → is_backup_in (backup_dir self) p = true →
     ∃ e, e ∈ backups listing ∧
          e !! "name" = Some (PyStr (stem p)) ∧
          e !! "path" = Some (PyStr p) ∧
          e !! "size_mb"
          = Some (PyRounded2 (round_half_even (st_size f * 100) (1024 * 1024))) ∧
          e !! "created"
          = Some (PyStr (isoformat (fromtimestamp (st_ctime f))))) ∧
  ∃ newest_first : list (string * file),
    newest_first ≡ₚ files ∧
    backups listing = backup_entry fromtimestamp <$> newest_first ∧
    ((∀ x y, x ∈ files → y ∈ files → st_ctime x.2 < st_ctime y.2 →
        String.ltb (isoformat (fromtimestamp (st_ctime x.2)))
                   (isoformat (fromtimestamp (st_ctime y.2))) = true) →
     StronglySorted (λ x y : string * file, st_ctime y.2 ≤ st_ctime x.2)
       newest_first).
Proof.
  intros listing files.
  assert (Hperm : backups listing ≡ₚ backup_entry fromtimestamp <$> files)
    by apply sorted_reverse_perm.
  split_and!.
  - done.
  - unfold listing, list_backups. simpl.
    by rewrite sorted_reverse_length, length_fmap.
  - done.
  - intros e He. rewrite Hperm in He.
    apply list_elem_of_fmap in He as (pf & -> & _). apply dom_backup_entry.
  - intros p f Hp Hb. exists (backup_entry fromtimestamp (p, f)). split.
    + rewrite Hperm. apply list_elem_of_fmap_2. by apply elem_of_glob_backup.
    + unfold backup_entry. simpl. by simplify_map_eq.
  - exists (sorted_reverse String.leb
              (λ pf : string * file,
                 isoformat (fromtimestamp (st_ctime pf.2))) files).
    split_and!.
    + apply sorted_reverse_perm.
    + apply list_backups_sorted_files.
    + apply sorted_by_created_text_is_by_ctime.
Qed.

(** The three backups of the sample directory were made on one day of a
    clock that runs forward: they are listed newest first. *)
Lemma list_backups_newest_first_sample :
  ∃ newest_first : list (string * file),
    newest_first ≡ₚ glob_backup "backups" sample_fs ∧
    backups (list_backups sample_clock sample_handler sample_fs)
    = backup_entry sample_clock <$> newest_first ∧
    StronglySorted (λ x y : string * file, st_ctime y.2 ≤ st_ctime x.2)
      newest_first.
Proof.
  destruct (list_backups_newest_first sample_clock sample_handler sample_fs)
    as (_ & _ & _ & _ & _ & newest_first & Hperm & Hlist & Hsorted).
  exists newest_first. split_and!; [exact Hperm|exact Hlist|].
  apply Hsorted.
  change (backup_dir sample_handler) with "backups".
  assert (Hfiles : glob_backup "backups" sample_fs
    = [("backups/c.backup", sample_file "second" 20000000);
       ("backups/a.backup", sample_file "first" 10000000);
       ("backups/b.backup", sample_file "third" 30000000)])
    by (vm_compute; reflexivity).
  rewrite Hfiles. intros x y Hx Hy Hlt.
  repeat (apply elem_of_cons in Hx as [->|Hx]);
    try (apply elem_of_nil in Hx; destruct Hx);
    repeat (apply elem_of_cons in Hy as [->|Hy]);
    try (apply elem_of_nil in Hy; destruct Hy);
    first [ vm_compute; reflexivity
          | exfalso; vm_compute in Hlt; discriminate Hlt ].
Defined.

(** Across a step back of the local clock the [created] texts are not in
    the order of the creation times: the listing has the older backup
    first, while [cleanup_old_backups], which sorts by [st_ctime], keeps
    the newer one. *)
Example list_backups_at_clock_fold :
  st_ctime (sample_file "old" 5400000000)
  < st_ctime (sample_file "new" 7800000000) ∧
  backups (list_backups fold_clock sample_handler fold_fs)
  = [ backup_entry fold_clock
        ("backups/old.backup", sample_file "old" 5400000000);
      backup_entry fold_clock
        ("backups/new.backup", sample_file "new" 7800000000) ] ∧
  entry_created (backup_entry fold_clock
                   ("backups/old.backup", sample_file "old" 5400000000))
  = "2024-04-27T01:30:00" ∧
  entry_created (backup_entry fold_clock
                   ("backups/new.backup", sample_file "new" 7800000000))
  = "2024-04-27T01:10:00" ∧
  cleanup_old_backups sample_handler 1 fold_fs
  = (delete "backups/old.backup" fold_fs, Ok 1) ∧
  delete "backups/old.backup" fold_fs !! "backups/new.backup"
  = Some (sample_file "new" 7800000000).
Proof. split_and!; vm_compute; reflexivity. Qed.

(** C9 as worded fails on the sample directory: the first record of the
    listing is that of the newest backup, and it has a [size_mb] field,
    0.0 for a file of five bytes, where the claim has a [size] field. *)
Lemma list_backups_sample_fields :
  let newest := ("backups/b.backup", sample_file "third" 30000000) in
  let e := backup_entry sample_clock newest in
  backups (list_backups sample_clock sample_handler sample_fs)
  = [ e;
      backup_entry sample_clock
        ("backups/c.backup", sample_file "second" 20000000);
      backup_entry sample_clock
        ("backups/a.backup", sample_file "first" 10000000) ] ∧
  e !! "path" = Some (PyStr "backups/b.backup") ∧
  e !! "created" = Some (PyStr "2024-04-27T00:00:30") ∧
  e !! "size_mb" = Some (PyRounded2 0) ∧
  e !! "size" = None ∧
  dom e ≠ list_to_set ["name"; "path"; "size"; "created"].
Proof.
  intros newest e. split; [vm_compute; reflexivity|].
  unfold e, backup_entry. split_and!.
  - by rewrite !lookup_insert_ne, lookup_insert_eq by done.
  - by rewrite lookup_insert_eq.
  - by rewrite lookup_insert_ne, lookup_insert_eq by done.
  - by rewrite !lookup_insert_ne, lookup_empty by done.
  - fold (backup_entry sample_clock newest). rewrite dom_backup_entry.
    intros Hdom.
    assert (Hin : "size" ∈ (list_to_set ["name"; "path"; "size_mb"; "created"]
                            : gset string)).
    { rewrite Hdom. apply elem_of_list_to_set. by apply (bool_decide_unpack _). }
    apply elem_of_list_to_set in Hin. revert Hin.
    by apply (bool_decide_unpack _).
Qed.

(** * More about the package *)

(** An outcome whose result is a value, taken apart. *)
Lemma outcome_ok {S T A} (x : S * T * result A) :
  is_ok x.2 = true → ∃ s t a, x = (s, t, Ok a).
Proof. destruct x as [[s t] [a|e]]; [eauto|done]. Qed.

(** ** More about [PrefectCleanup.run] *)

Lemma created_before_mono c1 c2 r :
  c2 ≤ c1 → created_before c2 r = true → created_before c1 r = true.
Proof.
  intros Hle. rewrite !created_before_spec.
  intros (ts & ? & ?). exists ts. split; [done|lia].
Qed.

Lemma kept_rows_mono c1 c2 rows :
  c2 ≤ c1 → kept_rows c1 rows `sublist_of` kept_rows c2 rows.
Proof.
  intros Hle. unfold kept_rows. induction rows as [|r rows IH]; simpl; [done|].
  destruct (created_before c1 r) eqn:E1; simpl.
  - destruct (created_before c2 r); simpl; [done|by constructor].
  - destruct (created_before c2 r) eqn:E2; simpl; [|by constructor].
    apply (created_before_mono c1) in E2; [congruence|done].
Qed.

Lemma gone_count_mono c1 c2 rows :
  c2 ≤ c1 → gone_count c2 rows ≤ gone_count c1 rows.
Proof.
  intros Hle. unfold gone_count. apply inj_le.
  induction rows as [|r rows IH]; simpl; [done|].
  destruct (created_before c2 r) eqn:E2.
  - rewrite (created_before_mono c1 c2 r Hle E2). simpl. lia.
  - destruct (created_before c1 r); simpl; lia.
Qed.

Lemma created_before_max c1 c2 r :
  created_before (Z.max c1 c2) r = created_before c1 r || created_before c2 r.
Proof.
  unfold created_before. destruct (created r) as [ts|]; [|done].
  apply eq_true_iff_eq. rewrite orb_true_iff, !Z.ltb_lt. lia.
Qed.

Lemma kept_rows_twice c1 c2 rows :
  kept_rows c2 (kept_rows c1 rows) = kept_rows (Z.max c1 c2) rows.
Proof.
  unfold kept_rows. induction rows as [|r rows IH]; simpl; [done|].
  rewrite created_before_max.
  destruct (created_before c1 r); simpl; [done|].
  destruct (created_before c2 r); simpl; by rewrite IH.
Qed.

Lemma gone_count_twice c1 c2 rows :
  gone_count (Z.max c1 c2) rows
  = gone_count c1 rows + gone_count c2 (kept_rows c1 rows).
Proof.
  unfold gone_count, kept_rows. rewrite <- Nat2Z.inj_add. f_equal.
  induction rows as [|r rows IH]; simpl; [done|].
  rewrite created_before_max.
  destruct (created_before c1 r); simpl; [by rewrite IH|].
  destruct (created_before c2 r); simpl; rewrite IH; lia.
Qed.

(** The tables of a database on which [run] returned. *)
Lemma run_ok_tables fault now days db db' tr stats t :
  run fault now days db = (db', tr, Ok stats) → t ∈ tables →
  fault t = None ∧
  ∃ rows, db !! t = Some rows ∧
          db' !! t = Some (kept_rows (now - days * us_per_day) rows) ∧
          stats !! t = Some (gone_count (now - days * us_per_day) rows).
Proof.
  intros Hrun Ht.
  destruct (run_ok_inv _ _ _ _ _ _ _ Hrun) as (cutoff & Hcut & Hok).
  destruct (run_ok fault now days db cutoff Hcut Hok)
    as (db1 & stats1 & Hrun1 & Hdb & Hstats).
  rewrite Hrun in Hrun1. simplify_eq.
  apply cutoff_date_value in Hcut as <-.
  specialize (Hok t Ht). unfold statement_error in Hok.
  destruct (fault t); [done|]. split; [done|].
  destruct (db !! t) as [rows|] eqn:Hrows; [|done].
  exists rows. by rewrite Hdb, Hstats, !decide_True, Hrows.
Qed.

(** Everything else of a database on which [run] returned. *)
Lemma run_ok_other fault now days db db' tr stats t :
  run fault now days db = (db', tr, Ok stats) → t ∉ tables →
  db' !! t = db !! t ∧ stats !! t = None.
Proof.
  intros Hrun Ht.
  destruct (run_ok_inv _ _ _ _ _ _ _ Hrun) as (cutoff & Hcut & Hok).
  destruct (run_ok fault now days db cutoff Hcut Hok)
    as (db1 & stats1 & Hrun1 & Hdb & Hstats).
  rewrite Hrun in Hrun1. simplify_eq.
  by rewrite Hdb, Hstats, !decide_False.
Qed.

(** X1. A longer retention window never deletes more: when [run] returns for
    the windows [d1 <= d2] on the same database and clock, each of the eight
    tables left by [run(d1)] is a sub-list of the one left by [run(d2)], and
    [run(d2)] reports no more deleted rows than [run(d1)]. *)
Theorem run_longer_window_deletes_less
    fault now d1 d2 db db1 tr1 stats1 db2 tr2 stats2 :
  d1 ≤ d2 →
  run fault now d1 db = (db1, tr1, Ok stats1) →
  run fault now d2 db = (db2, tr2, Ok stats2) →
  ∀ t, t ∈ tables →
    ∃ rows1 rows2 n1 n2,
      db1 !! t = Some rows1 ∧ db2 !! t = Some rows2 ∧
      rows1 `sublist_of` rows2 ∧
      stats1 !! t = Some n1 ∧ stats2 !! t = Some n2 ∧ n2 ≤ n1.
Proof.
  intros Hle Hrun1 Hrun2 t Ht.
  destruct (run_ok_tables _ _ _ _ _ _ _ t Hrun1 Ht)
    as (_ & rows & Hrows & Hdb1 & Hs1).
  destruct (run_ok_tables _ _ _ _ _ _ _ t Hrun2 Ht)
    as (_ & rows' & Hrows' & Hdb2 & Hs2).
  simplify_eq. eexists _, _, _, _. split_and!; [done..| | | |].
  - apply kept_rows_mono. unfold us_per_day. lia.
  - done.
  - done.
  - apply gone_count_mono. unfold us_per_day. lia.
Qed.

(** On the sample database a 30-day and a 90-day window. *)
Lemma run_longer_window_sample :
  ∃ db1 tr1 stats1 db2 tr2 stats2,
    run no_fault sample_now 30 sample_db = (db1, tr1, Ok stats1) ∧
    run no_fault sample_now 90 sample_db = (db2, tr2, Ok stats2) ∧
    ∀ t, t ∈ tables →
      ∃ rows1 rows2 n1 n2,
        db1 !! t = Some rows1 ∧ db2 !! t = Some rows2 ∧
        rows1 `sublist_of` rows2 ∧
        stats1 !! t = Some n1 ∧ stats2 !! t = Some n2 ∧ n2 ≤ n1.
Proof.
  destruct (outcome_ok (run no_fault sample_now 30 sample_db))
    as (db1 & tr1 & stats1 & H1); [vm_compute; reflexivity|].
  destruct (outcome_ok (run no_fault sample_now 90 sample_db))
    as (db2 & tr2 & stats2 & H2); [vm_compute; reflexivity|].
  exists db1, tr1, stats1, db2, tr2, stats2. split_and!; [done..|].
  apply (run_longer_window_deletes_less no_fault sample_now 30 90 sample_db
           db1 tr1 stats1 db2 tr2 stats2); [lia|done..].
Defined.

(** X2. Two cleanups in a row amount to the stricter one: when [run(d1)]
    and then [run(d2)] return (same clock), the database they leave is the
    one a single [run(min(d1, d2))] leaves, and that single run reports, for
    each of the eight tables, the sum of the two reports. *)
Theorem run_twice_is_strictest
    fault now d1 d2 db db1 tr1 stats1 db2 tr2 stats2 :
  run fault now d1 db = (db1, tr1, Ok stats1) →
  run fault now d2 db1 = (db2, tr2, Ok stats2) →
  ∃ stats,
    run fault now (Z.min d1 d2) db = (db2, tr2, Ok stats) ∧
    ∀ t, t ∈ tables →
      ∃ n1 n2, stats1 !! t = Some n1 ∧ stats2 !! t = Some n2 ∧
               stats !! t = Some (n1 + n2).
Proof.
  intros Hrun1 Hrun2.
  set (c1 := now - d1 * us_per_day). set (c2 := now - d2 * us_per_day).
  destruct (run_ok_inv _ _ _ _ _ _ _ Hrun1) as (c1' & Hcut1 & Hok1).
  destruct (run_ok_inv _ _ _ _ _ _ _ Hrun2) as (c2' & Hcut2 & Hok2).
  assert (c1' = c1) as -> by by apply cutoff_date_value.
  assert (c2' = c2) as -> by by apply cutoff_date_value.
  assert (Hcut : cutoff_date now (Z.min d1 d2) = Ok (Z.max c1 c2)).
  { destruct (Z.min_spec d1 d2) as [[? ->]|[? ->]].
    - rewrite Hcut1. f_equal. unfold c1, c2, us_per_day. lia.
    - rewrite Hcut2. f_equal. unfold c1, c2, us_per_day. lia. }
  destruct (run_ok fault now (Z.min d1 d2) db (Z.max c1 c2) Hcut Hok1)
    as (db' & stats & Hrun & Hdb & Hstats).
  destruct (run_ok fault now d2 db1 c2 Hcut2 Hok2)
    as (db2' & stats2' & Hrun2' & Hdb2 & Hstats2).
  rewrite Hrun2 in Hrun2'. simplify_eq.
  assert (db' = db2') as ->.
  { apply map_eq. intros t. rewrite Hdb, Hdb2.
    destruct (decide (t ∈ tables)) as [Ht|Ht].
    - destruct (run_ok_tables _ _ _ _ _ _ _ t Hrun1 Ht)
        as (_ & rows & Hrows & Hdb1 & _).
      rewrite Hrows, Hdb1. simpl. fold c1. by rewrite kept_rows_twice.
    - by destruct (run_ok_other _ _ _ _ _ _ _ t Hrun1 Ht) as [-> _]. }
  exists stats. split; [done|]. intros t Ht.
  destruct (run_ok_tables _ _ _ _ _ _ _ t Hrun1 Ht)
    as (_ & rows & Hrows & Hdb1 & Hs1).
  eexists _, _. split_and!; [exact Hs1| |].
  - by rewrite Hstats2, decide_True, Hdb1.
  - rewrite Hstats, decide_True, Hrows by done. simpl. fold c1.
    by rewrite gone_count_twice.
Qed.

(** A 30-day cleanup of the sample database followed by a 90-day one. *)
Lemma run_twice_sample :
  ∃ db1 tr1 stats1 db2 tr2 stats2 stats,
    run no_fault sample_now 30 sample_db = (db1, tr1, Ok stats1) ∧
    run no_fault sample_now 90 db1 = (db2, tr2, Ok stats2) ∧
    run no_fault sample_now 30 sample_db = (db2, tr2, Ok stats) ∧
    ∀ t, t ∈ tables →
      ∃ n1 n2, stats1 !! t = Some n1 ∧ stats2 !! t = Some n2 ∧
               stats !! t = Some (n1 + n2).
Proof.
  destruct (outcome_ok (run no_fault sample_now 30 sample_db))
    as (db1 & tr1 & stats1 & H1); [vm_compute; reflexivity|].
  destruct (outcome_ok (run no_fault sample_now 90 db1))
    as (db2 & tr2 & stats2 & H2).
  { replace db1 with (run no_fault sample_now 30 sample_db).1.1
      by by rewrite H1.
    vm_compute; reflexivity. }
  destruct (run_twice_is_strictest no_fault sample_now 30 90 sample_db
              db1 tr1 stats1 db2 tr2 stats2 H1 H2) as (stats & Hrun & Hsum).
  by exists db1, tr1, stats1, db2, tr2, stats2, stats.
Defined.

(** X3. [run] only removes rows, and never one without a date: when it
    returns, every table afterwards is a sub-list of what it was before, and
    every row whose [created] is NULL is still there. *)
Theorem run_only_removes_dated_rows fault now days db db' tr stats :
  run fault now days db = (db', tr, Ok stats) →
  (∀ t rows', db' !! t = Some rows' →
     ∃ rows, db !! t = Some rows ∧ rows' `sublist_of` rows) ∧
  (∀ t rows r, db !! t = Some rows → r ∈ rows → created r = None →
     ∃ rows', db' !! t = Some rows' ∧ r ∈ rows').
Proof.
  intros Hrun. split.
  - intros t rows' Hrows'. destruct (decide (t ∈ tables)) as [Ht|Ht].
    + destruct (run_ok_tables _ _ _ _ _ _ _ t Hrun Ht)
        as (_ & rows & Hrows & Hdb' & _).
      exists rows. split; [done|]. rewrite Hdb' in Hrows'. simplify_eq.
      apply List_filter_sublist.
    + destruct (run_ok_other _ _ _ _ _ _ _ t Hrun Ht) as [Hdb' _].
      exists rows'. by rewrite <- Hdb'.
  - intros t rows r Hrows Hr Hnull. destruct (decide (t ∈ tables)) as [Ht|Ht].
    + destruct (run_ok_tables _ _ _ _ _ _ _ t Hrun Ht)
        as (_ & rows0 & Hrows0 & Hdb' & _).
      simplify_eq. eexists. split; [exact Hdb'|].
      apply elem_of_kept_rows. split; [done|].
      unfold created_before. by rewrite Hnull.
    + destruct (run_ok_other _ _ _ _ _ _ _ t Hrun Ht) as [Hdb' _].
      exists rows. by rewrite Hdb'.
Qed.

(** The undated event of [dated_db] survives a zero-day window. *)
Lemma run_only_removes_dated_rows_sample :
  ∃ db' tr stats,
    run no_fault sample_now 0 dated_db = (db', tr, Ok stats) ∧
    ∃ rows', db' !! "events" = Some rows' ∧ undated_event ∈ rows'.
Proof.
  destruct (outcome_ok (run no_fault sample_now 0 dated_db))
    as (db' & tr & stats & Hrun); [vm_compute; reflexivity|].
  exists db', tr, stats. split; [done|].
  apply (proj2 (run_only_removes_dated_rows _ _ _ _ _ _ _ Hrun)
           "events" [undated_event] undated_event).
  - vm_compute; reflexivity.
  - by left.
  - done.
Defined.

(** X4. A window the date arithmetic cannot represent stops [run] before it
    connects: if [days] exceeds 999999999 in magnitude, or the cut-off falls
    outside the years 1 to 9999, [run] raises [OverflowError], sends no
    statement and leaves the database alone. *)
Theorem run_overflow fault now days db :
  999999999 < Z.abs days ∨ now - days * us_per_day < 0
  ∨ datetime_span ≤ now - days * us_per_day →
  ∃ msg, run fault now days db = (db, [], Raise (OverflowError msg)).
Proof.
  intros Hout. unfold run, cutoff_date, timedelta, datetime_sub,
    timedelta_max_days.
  destruct (Z.abs days <=? 999999999) eqn:E1; [|eauto].
  apply Z.leb_le in E1.
  destruct (0 <=? now - days * us_per_day) eqn:E2; simpl; [|eauto].
  apply Z.leb_le in E2.
  destruct (now - days * us_per_day <? datetime_span) eqn:E3; [|eauto].
  apply Z.ltb_lt in E3. lia.
Qed.

(** A window of 800,000 days reaches back before year 1. *)
Lemma run_overflow_sample :
  sample_now - 800000 * us_per_day < 0 ∧
  ∃ msg, run no_fault sample_now 800000 sample_db
         = (sample_db, [], Raise (OverflowError msg)).
Proof.
  assert (H : sample_now - 800000 * us_per_day < 0) by (vm_compute; reflexivity).
  split; [exact H|].
  apply (run_overflow no_fault sample_now 800000 sample_db). right. by left.
Defined.

(** ** [PrefectCleanup.size] *)

Section size_facts.
Variable fault : string → option string.

Lemma size_loop_app ts1 ts2 stats c :
  size_loop fault (ts1 ++ ts2) stats c =
  match size_loop fault ts1 stats c with
  | (c', Ok stats') => size_loop fault ts2 stats' c'
  | (c', Raise e) => (c', Raise e)
  end.
Proof.
  revert stats c. induction ts1 as [|t ts1 IH]; intros stats c; [done|].
  simpl. unfold conn_bind.
  destruct (execute_count fault t c) as [c1 [n|e]]; [apply IH|done].
Qed.

Lemma size_loop_ok ts : ∀ stats c,
  (∀ t, t ∈ ts → statement_error fault (pending c) t = None) →
  size_loop fault ts stats c =
  ({| committed := committed c; pending := pending c;
      trace := trace c ++ (EvExecute <$> ts) |},
   Ok (foldl (λ m t, <[t := table_count (pending c) t]> m) stats ts)).
Proof.
  induction ts as [|t ts IH]; intros stats c Hok.
  - simpl. rewrite app_nil_r. by destruct c.
  - simpl. unfold conn_bind. rewrite execute_count_spec.
    rewrite (Hok t) by left. rewrite IH by (intros u Hu; apply Hok; by right).
    simpl. by rewrite <- app_assoc.
Qed.

Lemma size_loop_fail pre t post e stats c :
  (∀ u, u ∈ pre → statement_error fault (pending c) u = None) →
  statement_error fault (pending c) t = Some e →
  size_loop fault (pre ++ t :: post) stats c =
  ({| committed := committed c; pending := pending c;
      trace := trace c ++ (EvExecute <$> pre) ++ [EvExecute t] |}, Raise e).
Proof.
  intros Hpre Ht. rewrite size_loop_app, size_loop_ok by done.
  simpl. unfold conn_bind. rewrite execute_count_spec. simpl. rewrite Ht.
  unfold log_event. simpl. by rewrite <- app_assoc.
Qed.

(** What [size] returns when its five tables can be counted. *)
Lemma size_ok db :
  (∀ t, t ∈ size_tables → statement_error fault db t = None) →
  size fault db =
  (db, (EvExecute <$> size_tables) ++ [EvClose],
   Ok (foldl (λ m t, <[t := table_count db t]> m) ∅ size_tables)).
Proof.
  intros Hok. unfold size, with_connect. by rewrite size_loop_ok.
Qed.

End size_facts.

Lemma size_tables_lookup (f : string → Z) t :
  foldl (λ m u, <[u := f u]> m) (∅ : gmap string Z) size_tables !! t
  = if decide (t ∈ size_tables) then Some (f t) else None.
Proof.
  unfold size_tables. simpl.
  destruct (decide (t ∈ _)) as [Ht|Ht].
  - repeat (apply elem_of_cons in Ht as [->|Ht]; [by simplify_map_eq|]).
    by apply elem_of_nil in Ht.
  - rewrite !not_elem_of_cons in Ht. destruct Ht as (?&?&?&?&?&_).
    by rewrite !lookup_insert_ne, lookup_empty by done.
Qed.

Lemma size_tables_subseteq t : t ∈ size_tables → t ∈ tables.
Proof.
  unfold size_tables. intros Ht.
  repeat (apply elem_of_cons in Ht as [->|Ht];
          [by apply (bool_decide_unpack _)|]).
  by apply elem_of_nil in Ht.
Qed.

(** X5. [size] returns the row count of each of its five tables, and of
    nothing else, when all five can be counted; it sends five queries and
    no commit, and leaves the database alone. *)
Theorem size_counts fault db :
  (∀ t, t ∈ size_tables → statement_error fault db t = None) →
  ∃ stats,
    size fault db = (db, (EvExecute <$> size_tables) ++ [EvClose], Ok stats) ∧
    (∀ t rows, t ∈ size_tables → db !! t = Some rows →
               stats !! t = Some (Z.of_nat (length rows))) ∧
    (∀ t, t ∉ size_tables → stats !! t = None).
Proof.
  intros Hok. eexists. split; [by apply size_ok|]. split.
  - intros t rows Ht Hrows. rewrite size_tables_lookup, decide_True by done.
    unfold table_count. by rewrite Hrows.
  - intros t Ht. by rewrite size_tables_lookup, decide_False.
Qed.

Lemma size_counts_sample :
  ∃ stats,
    size no_fault sample_db
    = (sample_db, (EvExecute <$> size_tables) ++ [EvClose], Ok stats) ∧
    stats !! "log" = Some 2 ∧ stats !! "flow_run_state" = None.
Proof.
  destruct (size_counts no_fault sample_db) as (stats & Hsize & Hin & Hout).
  { intros t Ht. unfold size_tables in Ht.
    repeat (apply elem_of_cons in Ht as [->|Ht]; [by vm_compute|]).
    by apply elem_of_nil in Ht. }
  exists stats. split_and!; [done| |].
  - apply (Hin "log" [old_log; new_log]);
      [by apply (bool_decide_unpack _)|vm_compute; reflexivity].
  - apply Hout. by apply (bool_decide_unpack _).
Defined.

(** X6. [size] catches nothing: the first of its tables whose COUNT raises
    ends it with that exception and no partial result, after the queries on
    the tables before it. *)
Theorem size_raises fault db pre t post e :
  size_tables = pre ++ t :: post →
  (∀ u, u ∈ pre → statement_error fault db u = None) →
  statement_error fault db t = Some e →
  size fault db = (db, (EvExecute <$> pre) ++ [EvExecute t; EvClose], Raise e).
Proof.
  intros Htab Hpre Ht. unfold size, with_connect. rewrite Htab.
  rewrite size_loop_fail with (e := e) by done. simpl.
  by rewrite <- !app_assoc.
Qed.

(** On the database without [flow_run], [size] stops at its third table,
    where [health_check] would have gone on. *)
Lemma size_raises_legacy :
  size no_fault legacy_db
  = (legacy_db, [EvExecute "log"; EvExecute "task_run"; EvExecute "flow_run";
                 EvClose],
     Raise (no_such_table "flow_run")).
Proof.
  apply (size_raises no_fault legacy_db ["log"; "task_run"] "flow_run"
           ["events"; "artifact"]); [done| |by vm_compute].
  intros u Hu.
  repeat (apply elem_of_cons in Hu as [->|Hu]; [by vm_compute|]).
  by apply elem_of_nil in Hu.
Defined.

(** X7. [size] after [run]: when [run] returns, [size] returns before and
    after it, and for each of the five tables the count after is the count
    before minus the number [run] reported for that table. *)
Theorem size_after_run fault now days db db' tr stats :
  run fault now days db = (db', tr, Ok stats) →
  ∃ before after,
    size fault db = (db, (EvExecute <$> size_tables) ++ [EvClose], Ok before) ∧
    size fault db' = (db', (EvExecute <$> size_tables) ++ [EvClose], Ok after) ∧
    ∀ t, t ∈ size_tables →
      ∃ n k, before !! t = Some n ∧ stats !! t = Some k ∧
             after !! t = Some (n - k).
Proof.
  intros Hrun.
  assert (Hok : ∀ t, t ∈ size_tables → statement_error fault db t = None).
  { intros t Ht. apply size_tables_subseteq in Ht.
    destruct (run_ok_tables _ _ _ _ _ _ _ t Hrun Ht) as (Hf & rows & Hrows & _).
    unfold statement_error. by rewrite Hf, Hrows. }
  assert (Hok' : ∀ t, t ∈ size_tables → statement_error fault db' t = None).
  { intros t Ht. apply size_tables_subseteq in Ht.
    destruct (run_ok_tables _ _ _ _ _ _ _ t Hrun Ht)
      as (Hf & rows & _ & Hrows' & _).
    unfold statement_error. by rewrite Hf, Hrows'. }
  eexists _, _. split_and!; [by apply size_ok|by apply size_ok|].
  intros t Ht. rewrite !size_tables_lookup, !decide_True by done.
  destruct (run_ok_tables _ _ _ _ _ _ _ t Hrun (size_tables_subseteq t Ht))
    as (_ & rows & Hrows & Hrows' & Hstats).
  eexists _, _. split_and!; [done|exact Hstats|].
  unfold table_count. rewrite Hrows, Hrows'. f_equal.
  rewrite gone_count_length. lia.
Qed.

Lemma size_after_run_sample :
  ∃ db' tr stats before after,
    run no_fault sample_now 30 sample_db = (db', tr, Ok stats) ∧
    size no_fault sample_db
    = (sample_db, (EvExecute <$> size_tables) ++ [EvClose], Ok before) ∧
    size no_fault db' = (db', (EvExecute <$> size_tables) ++ [EvClose], Ok after) ∧
    ∀ t, t ∈ size_tables →
      ∃ n k, before !! t = Some n ∧ stats !! t = Some k ∧
             after !! t = Some (n - k).
Proof.
  destruct (outcome_ok (run no_fault sample_now 30 sample_db))
    as (db' & tr & stats & Hrun); [vm_compute; reflexivity|].
  destruct (size_after_run _ _ _ _ _ _ _ Hrun) as (before & after & H).
  by exists db', tr, stats, before, after.
Defined.

(** ** More about [DatabaseMonitor.health_check] *)

Lemma int_of_slot_of_nonneg fault db t : 0 ≤ int_of (slot_of fault db t).
Proof.
  unfold slot_of, table_count.
  destruct (statement_error fault db t); simpl; [done|].
  destruct (db !! t); lia.
Qed.

(** X8. The fields of a health report are consistent: [total_records] is
    never negative; [is_large] implies [needs_cleanup]; a report that needs
    cleanup never recommends "small and healthy" or "growing but fine", and
    a large one recommends the weekly or the urgent cleanup; the only totals
    at which a flag is off while the recommendation has already moved to
    the next tier are 100,000 and 500,000. *)
Theorem health_check_consistent fault now_iso db db' tr h :
  health_check fault now_iso db = (db', tr, Ok h) →
  0 ≤ total_records h ∧
  (is_large h = true → needs_cleanup h = true) ∧
  (needs_cleanup h = true →
     recommendation h ∈ [ "Consider monthly cleanup (30 days retention)";
                          "Recommend weekly cleanup (7 days retention)";
                          "URGENT: Database is very large, cleanup immediately" ]) ∧
  (is_large h = true →
     recommendation h ∈ [ "Recommend weekly cleanup (7 days retention)";
                          "URGENT: Database is very large, cleanup immediately" ]) ∧
  (needs_cleanup h = false →
     recommendation h = "Consider monthly cleanup (30 days retention)" →
     total_records h = 100000) ∧
  (is_large h = false →
     recommendation h = "Recommend weekly cleanup (7 days retention)" →
     total_records h = 500000).
Proof.
  rewrite health_check_spec. intros [= <- <- <-]. simpl.
  pose proof (int_of_slot_of_nonneg fault db "log").
  pose proof (int_of_slot_of_nonneg fault db "flow_run").
  pose proof (int_of_slot_of_nonneg fault db "task_run").
  pose proof (int_of_slot_of_nonneg fault db "events").
  set (total := _ + _ + _ + _) in *. unfold _get_recommendation.
  split_and!.
  - lia.
  - rewrite !Z.ltb_lt. lia.
  - rewrite Z.ltb_lt. intros Hn.
    destruct (total <? 10000) eqn:E1; [apply Z.ltb_lt in E1; lia|].
    destruct (total <? 100000) eqn:E2; [apply Z.ltb_lt in E2; lia|].
    destruct (total <? 500000); [by left|].
    destruct (total <? 1000000); [right; by left|right; right; by left].
  - rewrite Z.ltb_lt. intros Hn.
    destruct (total <? 10000) eqn:E1; [apply Z.ltb_lt in E1; lia|].
    destruct (total <? 100000) eqn:E2; [apply Z.ltb_lt in E2; lia|].
    destruct (total <? 500000) eqn:E3; [apply Z.ltb_lt in E3; lia|].
    destruct (total <? 1000000); [by left|right; by left].
  - rewrite Z.ltb_ge. intros Hn.
    destruct (total <? 10000) eqn:E1; [done|].
    destruct (total <? 100000) eqn:E2; [done|]. apply Z.ltb_ge in E2. lia.
  - rewrite Z.ltb_ge. intros Hn.
    destruct (total <? 10000) eqn:E1; [done|].
    destruct (total <? 100000) eqn:E2; [done|].
    destruct (total <? 500000) eqn:E3; [done|]. apply Z.ltb_ge in E3.
    destruct (total <? 1000000); [lia|done].
Qed.

Lemma health_check_consistent_sample :
  ∃ db' tr h,
    health_check events_locked sample_iso sample_db = (db', tr, Ok h) ∧
    0 ≤ total_records h ∧ (is_large h = true → needs_cleanup h = true).
Proof.
  destruct (outcome_ok (health_check events_locked sample_iso sample_db))
    as (db' & tr & h & Hh); [vm_compute; reflexivity|].
  destruct (health_check_consistent _ _ _ _ _ _ Hh) as (H0 & H1 & _).
  by exists db', tr, h.
Defined.

(** X9. The health report after a cleanup: when [run] returns, the report
    taken afterwards totals what the report taken before totals, minus the
    rows [run] reported for [log], [flow_run], [task_run] and [events]. *)
Theorem health_check_after_run fault now days iso1 iso2 db db' tr stats :
  run fault now days db = (db', tr, Ok stats) →
  ∃ before after trh log flow_run task_run events,
    health_check fault iso1 db = (db, trh, Ok before) ∧
    health_check fault iso2 db' = (db', trh, Ok after) ∧
    stats !! "log" = Some log ∧ stats !! "flow_run" = Some flow_run ∧
    stats !! "task_run" = Some task_run ∧ stats !! "events" = Some events ∧
    total_records after
    = total_records before - (log + flow_run + task_run + events).
Proof.
  intros Hrun.
  assert (Hslot : ∀ t, t ∈ tables →
    ∃ rows, stats !! t = Some (gone_count (now - days * us_per_day) rows) ∧
      int_of (slot_of fault db' t)
      = int_of (slot_of fault db t)
        - gone_count (now - days * us_per_day) rows).
  { intros t Ht.
    destruct (run_ok_tables _ _ _ _ _ _ _ t Hrun Ht)
      as (Hf & rows & Hrows & Hrows' & Hstats).
    exists rows. split; [done|].
    unfold slot_of, statement_error, table_count.
    rewrite Hf, Hrows, Hrows'. simpl. rewrite gone_count_length. lia. }
  destruct (Hslot "log") as (r1 & Hs1 & E1); [by apply (bool_decide_unpack _)|].
  destruct (Hslot "flow_run") as (r2 & Hs2 & E2);
    [by apply (bool_decide_unpack _)|].
  destruct (Hslot "task_run") as (r3 & Hs3 & E3);
    [by apply (bool_decide_unpack _)|].
  destruct (Hslot "events") as (r4 & Hs4 & E4);
    [by apply (bool_decide_unpack _)|].
  eexists _, _, _, _, _, _, _.
  split_and!; [apply health_check_spec|apply health_check_spec|
               exact Hs1|exact Hs2|exact Hs3|exact Hs4|].
  simpl. lia.
Qed.

Lemma health_check_after_run_sample :
  ∃ db' tr stats before after trh log flow_run task_run events,
    run no_fault sample_now 30 sample_db = (db', tr, Ok stats) ∧
    health_check no_fault sample_iso sample_db = (sample_db, trh, Ok before) ∧
    health_check no_fault sample_iso db' = (db', trh, Ok after) ∧
    stats !! "log" = Some log ∧ stats !! "flow_run" = Some flow_run ∧
    stats !! "task_run" = Some task_run ∧ stats !! "events" = Some events ∧
    total_records after
    = total_records before - (log + flow_run + task_run + events).
Proof.
  destruct (outcome_ok (run no_fault sample_now 30 sample_db))
    as (db' & tr & stats & Hrun); [vm_compute; reflexivity|].
  destruct (health_check_after_run no_fault sample_now 30 sample_iso sample_iso
              sample_db db' tr stats Hrun)
    as (before & after & trh & a & b & c & d & H).
  by exists db', tr, stats, before, after, trh, a, b, c, d.
Defined.

(** ** Text: prefixes, occurrences, replacement *)




Lemma str_in_prefix needle s :
  String.prefix needle s = true → str_in needle s = true.
Proof. intros H. destruct s; cbn [str_in]; by rewrite H. Qed.





Lemma strip_prefix_app pre s : strip_prefix pre (pre +:+ s) = Some s.
Proof.
  induction pre as [|a pre IH]; [by destruct s|].
  change (strip_prefix (String a pre) (String a (pre +:+ s)) = Some s).
  simpl. by rewrite Ascii.eqb_refl.
Qed.

Lemma strip_prefix_Some pre s b :
  strip_prefix pre s = Some b → s = pre +:+ b.
Proof.
  revert s. induction pre as [|a pre IH]; intros s; simpl.
  - destruct s; naive_solver.
  - destruct s as [|c s]; [done|].
    destruct (Ascii.eqb a c) eqn:E; [|done].
    apply Ascii.eqb_eq in E as ->. intros H%IH. by rewrite H.
Qed.

(** A one-character needle occurs in a concatenation exactly when it occurs
    in one of the parts. *)
Lemma str_in_char_app c a b :
  str_in (String c "") (a +:+ b)
  = str_in (String c "") a || str_in (String c "") b.
Proof.
  induction a as [|d a IH].
  - reflexivity.
  - change (String d a +:+ b) with (String d (a +:+ b)).
    cbn [str_in]. rewrite IH. cbn [String.prefix].
    destruct (ascii_dec c d); [|done].
    generalize (a +:+ b). intros x. by destruct a, x.
Qed.

(** ** More about [BackupHandler] *)

Lemma is_backup_in_true dir p :
  is_backup_in dir p = true →
  ∃ b, p = dir +:+ "/" +:+ b ∧ b ≠ "" ∧ str_in "/" b = false ∧
       endswith ".backup" b = true.
Proof.
  unfold is_backup_in, child_name.
  destruct (strip_prefix (dir +:+ "/") p) as [b|] eqn:Hstrip; [|done].
  apply strip_prefix_Some in Hstrip. rewrite string_app_assoc in Hstrip.
  destruct (String.eqb b "") eqn:Hb; [done|]. simpl.
  destruct (str_in "/" b) eqn:Hslash; [done|]. intros Hend.
  exists b. split_and!; try done. intros ->. by rewrite String.eqb_refl in Hb.
Qed.

Lemma is_backup_in_child dir b :
  b ≠ "" → str_in "/" b = false → endswith ".backup" b = true →
  is_backup_in dir (dir +:+ "/" +:+ b) = true.
Proof.
  intros Hb Hslash Hend. unfold is_backup_in, child_name.
  rewrite <- string_app_assoc, strip_prefix_app, Hslash.
  by apply String.eqb_neq in Hb as ->.
Qed.

(** The backup path of a name without a slash. *)
Lemma path_join_plain_name dir n :
  str_in "/" n = false →
  path_join dir (n +:+ ".backup") = dir +:+ "/" +:+ n +:+ ".backup" ∧
  is_backup_in dir (dir +:+ "/" +:+ n +:+ ".backup") = true.
Proof.
  intros Hn.
  assert (Hslash : str_in "/" (n +:+ ".backup") = false).
  { change "/" with (String "/"%char ""). rewrite str_in_char_app.
    change (String "/"%char "") with "/". by rewrite Hn. }
  split.
  - unfold path_join.
    destruct (String.prefix "/" (n +:+ ".backup")) eqn:E; [|done].
    apply str_in_prefix in E. congruence.
  - apply is_backup_in_child; [by destruct n|done|apply endswith_app].
Qed.

Section backup_more.
Variable fromtimestamp : Z → datetime.
Variable pg_dump :
  string → string → filesystem → filesystem * result (Z * string).


(** X11. Default names have a resolution of one second: two backups taken
    at instants that render to the same [%Y%m%d_%H%M%S] text get the same
    path, and the second replaces the first, so that one backup file is
    added, with the bytes of the source and the time of the second call.
    This is so for every database file but one that is itself at that
    path, which [create] refuses to copy onto itself, both times. *)
Theorem create_same_second_overwrites self t1 t2 fs src :
  _is_sqlite self = true →
  fs !! source_path self = Some src →
  strftime_Ymd_HMS (fromtimestamp t1) = strftime_Ymd_HMS (fromtimestamp t2) →
  ∃ path,
    path = backup_path_at fromtimestamp self t1 None ∧
    path = backup_path_at fromtimestamp self t2 None ∧
    (source_path self ≠ path →
       ∃ c1 c2,
         create fromtimestamp pg_dump self t1 None fs
         = (<[path := c1]> fs, Ok path) ∧
         create fromtimestamp pg_dump self t2 None (<[path := c1]> fs)
         = (<[path := c2]> fs, Ok path) ∧
         content c2 = content src ∧ st_ctime c2 = t2) ∧
    (source_path self = path →
       ∃ msg,
         create fromtimestamp pg_dump self t1 None fs
         = (fs, Raise (SameFileError msg)) ∧
         create fromtimestamp pg_dump self t2 None fs
         = (fs, Raise (SameFileError msg))).
Proof.
  intros Hsqlite Hsrc Hsame.
  assert (Hpath : backup_path_at fromtimestamp self t1 None
                  = backup_path_at fromtimestamp self t2 None).
  { unfold backup_path_at. by rewrite Hsame. }
  exists (backup_path_at fromtimestamp self t2 None).
  split_and!; [done|done|..].
  - intros Hne.
    exists {| content := content src; st_ctime := t1 |},
           {| content := content src; st_ctime := t2 |}.
    split_and!; [| |done..].
    + rewrite <- Hpath in Hne |- *. by apply create_sqlite_copies.
    + rewrite (create_sqlite_copies _ _ _ _ _ _ src) by
        (done || by rewrite lookup_insert_ne).
      by rewrite insert_insert_eq.
  - intros Heq.
    assert (Hex := path_exists_file _ _ _ Hsrc).
    eexists. split.
    + rewrite create_sqlite_same_file by (done || by rewrite Hpath).
      rewrite Hpath. reflexivity.
    + by apply create_sqlite_same_file.
Qed.

(** X12. A backup made under a name without a slash shows up in the
    listing: after [create(name)] the list of [list_backups] has a record
    whose path is [backup_dir/name.backup] and whose [created] text is that
    of the instant of the call. This is so for every database file but one
    that is itself at that path, which [create] refuses to copy onto
    itself. *)
Theorem create_then_list_backups self now n fs src :
  _is_sqlite self = true →
  fs !! source_path self = Some src →
  str_in "/" n = false →
  let path := backup_dir self +:+ "/" +:+ n +:+ ".backup" in
  (source_path self ≠ path →
     ∃ fs' e,
       create fromtimestamp pg_dump self now (Some n) fs = (fs', Ok path) ∧
       e ∈ backups (list_backups fromtimestamp self fs') ∧
       e !! "path" = Some (PyStr path) ∧
       e !! "created" = Some (PyStr (isoformat (fromtimestamp now)))) ∧
  (source_path self = path →
     ∃ msg, create fromtimestamp pg_dump self now (Some n) fs
            = (fs, Raise (SameFileError msg))).
Proof.
  intros Hsqlite Hsrc Hn.
  destruct (path_join_plain_name (backup_dir self) n Hn) as [Hpath Hbackup].
  assert (Hat : backup_path_at fromtimestamp self now (Some n)
                = backup_dir self +:+ "/" +:+ n +:+ ".backup")
    by exact Hpath.
  intros path. fold path in Hat, Hbackup. split.
  - intros Hne.
    set (copy := {| content := content src; st_ctime := now |}).
    exists (<[path := copy]> fs), (backup_entry fromtimestamp (path, copy)).
    split_and!.
    + rewrite <- Hat in Hne |- *. by apply create_sqlite_copies.
    + unfold list_backups. simpl. rewrite sorted_reverse_perm.
      apply list_elem_of_fmap_2, elem_of_glob_backup.
      by rewrite lookup_insert_eq.
    + unfold backup_entry. simpl. by simplify_map_eq.
    + unfold backup_entry. simpl. by simplify_map_eq.
  - intros Heq. eexists. apply create_sqlite_same_file; [done| |by rewrite Hat].
    by eapply path_exists_file.
Qed.

Lemma backup_entry_path pf :
  backup_entry fromtimestamp pf !! "path" = Some (PyStr pf.1).
Proof.
  unfold backup_entry. by rewrite !lookup_insert_ne, lookup_insert_eq by done.
Qed.

(** X13. Nothing but backup files of the directory is listed: every record
    of [list_backups] is that of a file whose path is the backup directory,
    a slash, and a name without a slash that ends in [.backup]; no two
    records have the same path, and [total_backups] is their number. *)
Theorem list_backups_only_backups self fs :
  let listing := list_backups fromtimestamp self fs in
  (∀ e, e ∈ backups listing →
     ∃ p f b, fs !! p = Some f ∧ p = backup_dir self +:+ "/" +:+ b ∧
              b ≠ "" ∧ str_in "/" b = false ∧ endswith ".backup" b = true ∧
              e = backup_entry fromtimestamp (p, f)) ∧
  NoDup ((λ e : gmap string pyval, e !! "path") <$> backups listing) ∧
  total_backups listing = Z.of_nat (length (backups listing)).
Proof.
  intros listing.
  assert (Hperm : backups listing
                  ≡ₚ backup_entry fromtimestamp
                     <$> glob_backup (backup_dir self) fs)
    by apply sorted_reverse_perm.
  split_and!.
  - intros e He. rewrite Hperm in He.
    apply list_elem_of_fmap in He as ([p f] & -> & Hpf).
    apply elem_of_glob_backup in Hpf as [Hp Hb].
    apply is_backup_in_true in Hb as (b & -> & ? & ? & ?).
    by exists (backup_dir self +:+ "/" +:+ b), f, b.
  - rewrite Hperm, <- list_fmap_compose.
    apply (NoDup_fmap_2_strong _).
    + intros [p f] [q g] Hp Hq. simpl. rewrite !backup_entry_path.
      simpl. intros [= ->].
      apply elem_of_glob_backup in Hp as [Hp _].
      apply elem_of_glob_backup in Hq as [Hq _]. congruence.
    + eapply NoDup_fmap_1, NoDup_glob_backup.
  - done.
Qed.

End backup_more.


(** Two default-named backups of the sample database, half a second apart. *)
Lemma create_same_second_sample :
  ∃ path c1 c2,
    create sample_clock pg_dump_missing sample_handler 43200000000 None
      sample_fs
    = (<[path := c1]> sample_fs, Ok path) ∧
    create sample_clock pg_dump_missing sample_handler 43200500000 None
      (<[path := c1]> sample_fs)
    = (<[path := c2]> sample_fs, Ok path) ∧
    content c2 = content (sample_file "SQLite format 3" 1000000) ∧
    st_ctime c2 = 43200500000.
Proof.
  destruct (create_same_second_overwrites sample_clock pg_dump_missing
              sample_handler 43200000000 43200500000 sample_fs
              (sample_file "SQLite format 3" 1000000))
    as (path & _ & Hpath & Hcopy & _).
  - vm_compute; reflexivity.
  - vm_compute; reflexivity.
  - vm_compute; reflexivity.
  - exists path. apply Hcopy. rewrite Hpath.
    intros Heq. vm_compute in Heq. discriminate Heq.
Defined.

Lemma create_then_list_backups_sample :
  ∃ fs' e,
    create sample_clock pg_dump_missing sample_handler 43200000000
      (Some "before_cleanup") sample_fs
    = (fs', Ok "backups/before_cleanup.backup") ∧
    e ∈ backups (list_backups sample_clock sample_handler fs') ∧
    e !! "path" = Some (PyStr "backups/before_cleanup.backup") ∧
    e !! "created" = Some (PyStr (isoformat (sample_clock 43200000000))).
Proof.
  apply (create_then_list_backups sample_clock pg_dump_missing sample_handler
           43200000000 "before_cleanup" sample_fs
           (sample_file "SQLite format 3" 1000000)).
  - vm_compute; reflexivity.
  - vm_compute; reflexivity.
  - vm_compute; reflexivity.
  - intros Heq. vm_compute in Heq. discriminate Heq.
Defined.

(** ** More about [BackupHandler.cleanup_old_backups] *)

(** The slice [l[k:]] is what is left of [l] after some number of leading
    elements. *)
Lemma slice_from_drop {A} (k : Z) (l : list A) :
  ∃ m, slice_from k l = drop m l ∧
       (0 ≤ k → m = Z.to_nat (Z.min k (Z.of_nat (length l)))).
Proof.
  unfold slice_from. destruct (k <? 0) eqn:E.
  - eexists. split; [done|]. apply Z.ltb_lt in E. lia.
  - eexists. split; [done|]. done.
Qed.

(** [cleanup_old_backups] as a pruning after the first [m] backups. *)
Lemma cleanup_old_backups_prune self k fs :
  ∃ m fs',
    (0 ≤ k → m = Z.to_nat (Z.min k (Z.of_nat (length
                                  (glob_backup (backup_dir self) fs))))) ∧
    cleanup_old_backups self k fs
    = (fs', Ok (Z.of_nat (length (glob_backup (backup_dir self) fs) - m))) ∧
    glob_backup (backup_dir self) fs'
      ≡ₚ take m (newest_first (backup_dir self) fs) ∧
    (∀ p, is_backup_in (backup_dir self) p = false → fs' !! p = fs !! p).
Proof.
  destruct (slice_from_drop k (newest_first (backup_dir self) fs))
    as (m & Hslice & Hm).
  destruct (prune_after (backup_dir self) fs m) as (fs' & Hloop & Hperm & Hother).
  exists m, fs'. split_and!; [|by unfold cleanup_old_backups;
                                fold (newest_first (backup_dir self) fs);
                                rewrite Hslice|done..].
  intros Hk. rewrite (Hm Hk).
  by rewrite (Permutation_length (newest_first_perm _ _)).
Qed.

(** With room for every backup nothing is removed. *)
Lemma cleanup_old_backups_noop self k fs :
  Z.of_nat (length (glob_backup (backup_dir self) fs)) ≤ k →
  cleanup_old_backups self k fs = (fs, Ok 0).
Proof.
  intros Hk. unfold cleanup_old_backups.
  rewrite slice_from_nonneg by lia. rewrite drop_ge; [done|].
  rewrite sorted_reverse_length. lia.
Qed.


(** X15. With [keep_count] at least the number of backups nothing is
    deleted: the call returns 0 and the file system is unchanged. *)
Theorem cleanup_old_backups_keeps_all self k fs :
  Z.of_nat (length (glob_backup (backup_dir self) fs)) ≤ k →
  cleanup_old_backups self k fs = (fs, Ok 0).
Proof. apply cleanup_old_backups_noop. Qed.

Lemma cleanup_old_backups_keeps_all_sample :
  cleanup_old_backups sample_handler 5 sample_fs = (sample_fs, Ok 0).
Proof.
  apply (cleanup_old_backups_keeps_all sample_handler 5 sample_fs).
  vm_compute. discriminate.
Defined.

(** X16. For [keep_count >= 0] pruning is idempotent: after a first call, a
    second call with the same [keep_count] returns 0 and leaves the file
    system as the first call left it. *)
Theorem cleanup_old_backups_idempotent self k fs fs' n :
  0 ≤ k →
  cleanup_old_backups self k fs = (fs', Ok n) →
  cleanup_old_backups self k fs' = (fs', Ok 0).
Proof.
  intros Hk Hrun.
  destruct (cleanup_old_backups_prune self k fs)
    as (m & fs1 & Hm & Hrun1 & Hperm & _).
  rewrite Hrun in Hrun1. simplify_eq.
  apply cleanup_old_backups_noop.
  rewrite Hperm, length_take, (Hm Hk). lia.
Qed.

(** X17. The listing after a pruning: it loses as many records as the call
    returned, every record left was in the listing before, and for
    [keep_count >= 0] it has [min(keep_count, total_backups)] records. *)
Theorem list_backups_after_cleanup fromtimestamp self k fs fs' n :
  cleanup_old_backups self k fs = (fs', Ok n) →
  let before := list_backups fromtimestamp self fs in
  let after := list_backups fromtimestamp self fs' in
  total_backups after = total_backups before - n ∧
  (∀ e, e ∈ backups after → e ∈ backups before) ∧
  (0 ≤ k → total_backups after = Z.min k (total_backups before)).
Proof.
  intros Hrun before after.
  destruct (cleanup_old_backups_prune self k fs)
    as (m & fs1 & Hm & Hrun1 & Hperm & _).
  rewrite Hrun in Hrun1. simplify_eq.
  assert (Hlen : ∀ fs0, total_backups (list_backups fromtimestamp self fs0)
                       = Z.of_nat (length (glob_backup (backup_dir self) fs0))).
  { intros fs0. unfold list_backups. simpl.
    by rewrite sorted_reverse_length, length_fmap. }
  assert (Hafter : Z.of_nat (length (glob_backup (backup_dir self) fs1))
                   = Z.of_nat (Nat.min m (length
                                  (glob_backup (backup_dir self) fs)))).
  { rewrite Hperm, length_take.
    by rewrite (Permutation_length (newest_first_perm _ _)). }
  unfold before, after. rewrite !Hlen, Hafter. split_and!.
  - lia.
  - intros e. unfold list_backups. simpl. rewrite !sorted_reverse_perm.
    intros ([p f] & -> & Hpf)%list_elem_of_fmap.
    apply list_elem_of_fmap_2. rewrite Hperm in Hpf.
    apply elem_of_take in Hpf as (i & Hpf & _).
    apply list_elem_of_lookup_2 in Hpf.
    by rewrite <- newest_first_perm.
  - intros Hk. rewrite (Hm Hk). lia.
Qed.

(** A pair whose result is a value, taken apart. *)
Lemma pair_ok {S A} (x : S * result A) :
  is_ok x.2 = true → ∃ s a, x = (s, Ok a).
Proof. destruct x as [s [a|e]]; [eauto|done]. Qed.

Lemma cleanup_old_backups_idempotent_sample :
  ∃ fs' n,
    cleanup_old_backups sample_handler 1 sample_fs = (fs', Ok n) ∧
    cleanup_old_backups sample_handler 1 fs' = (fs', Ok 0).
Proof.
  destruct (pair_ok (cleanup_old_backups sample_handler 1 sample_fs))
    as (fs' & n & Hrun); [vm_compute; reflexivity|].
  exists fs', n. split; [exact Hrun|].
  apply (cleanup_old_backups_idempotent sample_handler 1 sample_fs fs' n);
    [lia|exact Hrun].
Defined.

Lemma list_backups_after_cleanup_sample :
  ∃ fs' n,
    cleanup_old_backups sample_handler 2 sample_fs = (fs', Ok n) ∧
    total_backups (list_backups sample_clock sample_handler fs')
    = total_backups (list_backups sample_clock sample_handler sample_fs) - n ∧
    (0 ≤ 2 →
     total_backups (list_backups sample_clock sample_handler fs')
     = Z.min 2 (total_backups
                  (list_backups sample_clock sample_handler sample_fs))).
Proof.
  destruct (pair_ok (cleanup_old_backups sample_handler 2 sample_fs))
    as (fs' & n & Hrun); [vm_compute; reflexivity|].
  exists fs', n. split; [exact Hrun|].
  destruct (list_backups_after_cleanup sample_clock sample_handler 2
              sample_fs fs' n Hrun) as (H1 & _ & H2).
  by split.
Defined.

(** ** [retention_policies.get_policy] *)

(** X18. [get_policy] answers exactly the names of [POLICIES]: a listed name
    gives its policy, whose window is between 1 and 90 days; any other name
    raises [ValueError] with a message that quotes the name and lists the
    four names available. *)
Theorem get_policy_known_or_error n :
  (∀ p, get_policy n = inr p ↔ (n, p) ∈ POLICIES) ∧
  (∀ p, get_policy n = inr p → 1 ≤ days p ≤ 90) ∧
  (n ∉ POLICIES.*1 →
   get_policy n
   = inl (ValueError
            ("Unknown policy: " +:+ n +:+
             ". Available: ['development', 'staging', 'production', 'compliance']"))).
Proof.
  unfold get_policy, POLICIES. simpl.
  destruct (decide ("development" = n)) as [<-|H1]; simpl.
  { split_and!.
    - intros p. split; [intros [= <-]; by left|].
      intros Hin.
      repeat (apply elem_of_cons in Hin as [Heq|Hin]; [by simplify_eq|]).
      by apply elem_of_nil in Hin.
    - intros p [= <-]. simpl. lia.
    - intros Hn. exfalso. apply Hn. by left. }
  destruct (decide ("staging" = n)) as [<-|H2]; simpl.
  { split_and!.
    - intros p. split; [intros [= <-]; right; by left|].
      intros Hin.
      repeat (apply elem_of_cons in Hin as [Heq|Hin]; [by simplify_eq|]).
      by apply elem_of_nil in Hin.
    - intros p [= <-]. simpl. lia.
    - intros Hn. exfalso. apply Hn. right. by left. }
  destruct (decide ("production" = n)) as [<-|H3]; simpl.
  { split_and!.
    - intros p. split; [intros [= <-]; right; right; by left|].
      intros Hin.
      repeat (apply elem_of_cons in Hin as [Heq|Hin]; [by simplify_eq|]).
      by apply elem_of_nil in Hin.
    - intros p [= <-]. simpl. lia.
    - intros Hn. exfalso. apply Hn. right. right. by left. }
  destruct (decide ("compliance" = n)) as [<-|H4]; simpl.
  { split_and!.
    - intros p. split; [intros [= <-]; right; right; right; by left|].
      intros Hin.
      repeat (apply elem_of_cons in Hin as [Heq|Hin]; [by simplify_eq|]).
      by apply elem_of_nil in Hin.
    - intros p [= <-]. simpl. lia.
    - intros Hn. exfalso. apply Hn. right. right. right. by left. }
  split_and!.
  - intros p. split; [done|].
    intros Hin.
    repeat (apply elem_of_cons in Hin as [Heq|Hin]; [by simplify_eq|]).
    by apply elem_of_nil in Hin.
  - done.
  - done.
Qed.

(** ** [quick_cleanup] *)

Lemma sum_values_insert k v (m : gmap string Z) :
  m !! k = None → sum_values (<[k := v]> m) = v + sum_values m.
Proof.
  intros Hk. unfold sum_values. rewrite map_fold_insert_L; [done| |done].
  intros. lia.
Qed.

Lemma sum_values_list_to_map (l : list (string * Z)) :
  NoDup l.*1 →
  sum_values (list_to_map l) = foldr (λ kv acc, kv.2 + acc) 0 l.
Proof.
  induction l as [|[k v] l IH]; intros Hnd.
  - unfold sum_values. by rewrite list_to_map_nil, map_fold_empty.
  - rewrite fmap_cons in Hnd. apply NoDup_cons in Hnd as [Hk Hnd].
    rewrite list_to_map_cons, sum_values_insert, IH; [done|done|].
    by apply not_elem_of_list_to_map_1.
Qed.

(** What [run] reports adds up to the rows it removed. *)
Lemma run_stats_sum fault now days db db' tr stats :
  run fault now days db = (db', tr, Ok stats) →
  sum_values stats = rows_removed db db'.
Proof.
  intros Hrun.
  set (g := λ t, table_count db t - table_count db' t).
  assert (Hnd : NoDup ((λ t, (t, g t)) <$> tables).*1).
  { rewrite <- list_fmap_compose.
    replace (fst ∘ (λ t : string, (t, g t))) with (@id string) by done.
    rewrite list_fmap_id. apply NoDup_tables. }
  assert (stats = list_to_map ((λ t, (t, g t)) <$> tables)) as ->.
  { apply map_eq. intros t. destruct (decide (t ∈ tables)) as [Ht|Ht].
    - destruct (run_ok_tables _ _ _ _ _ _ _ t Hrun Ht)
        as (_ & rows & Hrows & Hrows' & ->).
      symmetry. apply elem_of_list_to_map_1; [done|].
      apply list_elem_of_fmap. exists t. split; [|done]. f_equal.
      unfold g, table_count. rewrite Hrows, Hrows', gone_count_length. done.
    - destruct (run_ok_other _ _ _ _ _ _ _ t Hrun Ht) as [_ ->].
      symmetry. apply not_elem_of_list_to_map_1.
      rewrite <- list_fmap_compose.
      replace (fst ∘ (λ t : string, (t, g t))) with (@id string) by done.
      by rewrite list_fmap_id. }
  rewrite sum_values_list_to_map by done. unfold rows_removed.
  by rewrite foldr_fmap.
Qed.

Section quick_facts.
Variable fault : string → option string.
Variable fromtimestamp : Z → datetime.
Variable pg_dump :
  string → string → filesystem → filesystem * result (Z * string).
Variable url : string.

(** X19. [quick_cleanup(backup=True)] deletes only after a backup was made:
    if [create] raises, that exception is what [quick_cleanup] raises,
    nothing is printed, no statement reaches the database and the database
    is as it was; so whenever a statement was sent or the database changed,
    [create] had returned a path, and the first line printed names it. *)
Theorem quick_cleanup_backup_first backup_at now retention fs db :
  let handler := {| db_url := url; backup_dir := "backups" |} in
  let o := quick_cleanup fault fromtimestamp pg_dump url backup_at now
             retention true fs db in
  (∀ fs' e,
     create fromtimestamp pg_dump handler backup_at None fs = (fs', Raise e) →
     o = {| out_fs := fs'; out_db := db; out_printed := []; out_trace := [];
            out_result := Raise e |}) ∧
  (out_trace o ≠ [] ∨ out_db o ≠ db →
   ∃ path,
     create fromtimestamp pg_dump handler backup_at None fs
     = (out_fs o, Ok path) ∧
     out_printed o !! 0%nat = Some ("✅ Backup created: " +:+ path)).
Proof.
  intros handler o. unfold o, quick_cleanup. fold handler.
  destruct (create fromtimestamp pg_dump handler backup_at None fs)
    as [fs1 [path|e1]].
  - split; [done|]. intros _. exists path.
    by destruct (run fault now retention db) as [[db' tr] [stats|e]].
  - split; [by intros ?? [= <- <-]|]. simpl. by intros [?|?].
Qed.

(** X20. What [quick_cleanup] returns is what [run] returns, and the number
    in its last line is the number of rows that left the eight tables. *)
Theorem quick_cleanup_reports_rows_removed
    backup_at now retention backup fs db stats :
  let o := quick_cleanup fault fromtimestamp pg_dump url backup_at now
             retention backup fs db in
  out_result o = Ok stats →
  run fault now retention db = (out_db o, out_trace o, Ok stats) ∧
  sum_values stats = rows_removed db (out_db o) ∧
  last (out_printed o)
  = Some ("✅ Cleanup completed: " +:+ pretty (rows_removed db (out_db o))
          +:+ " records removed") ∧
  (backup = false → out_fs o = fs).
Proof.
  intros o. unfold o, quick_cleanup.
  set (backed := if backup then _ else _).
  assert (Hfs : backup = false → backed = (fs, Ok [])) by by intros ->.
  destruct backed as [fs1 [printed|e1]]; [|done].
  destruct (run fault now retention db) as [[db' tr] [stats'|e]] eqn:Hrun;
    [|done].
  simpl. intros [= ->].
  pose proof (run_stats_sum _ _ _ _ _ _ _ Hrun) as Hsum.
  split_and!; [done|done| |].
  - by rewrite last_snoc, Hsum.
  - intros Hb. specialize (Hfs Hb). by simplify_eq.
Qed.

End quick_facts.

(** The one-line cleanup of the sample deployment prints one removed row. *)
Lemma quick_cleanup_sample :
  ∃ stats,
    let o := quick_cleanup no_fault sample_clock pg_dump_missing
               "sqlite:///data/prefect.db" 43200000000 sample_now 30 true
               sample_fs sample_db in
    out_result o = Ok stats ∧
    sum_values stats = rows_removed sample_db (out_db o) ∧
    last (out_printed o)
    = Some ("✅ Cleanup completed: "
            +:+ pretty (rows_removed sample_db (out_db o))
            +:+ " records removed") ∧
    rows_removed sample_db (out_db o) = 1.
Proof.
  set (o := quick_cleanup no_fault sample_clock pg_dump_missing
              "sqlite:///data/prefect.db" 43200000000 sample_now 30 true
              sample_fs sample_db).
  assert (Hok : is_ok (out_result o) = true) by (vm_compute; reflexivity).
  destruct (out_result o) as [stats|e] eqn:Hres; [|done].
  exists stats.
  destruct (quick_cleanup_reports_rows_removed no_fault sample_clock
              pg_dump_missing "sqlite:///data/prefect.db" 43200000000
              sample_now 30 true sample_fs sample_db stats Hres)
    as (_ & Hsum & Hlast & _).
  split_and!; [done|exact Hsum|exact Hlast|].
  vm_compute; reflexivity.
Defined.

(** ** [DatabaseMonitor.size_summary] *)

(** Trailing blanks are looked for behind the last character that is not
    one. *)
Lemma rstrip_app_nonspace q c r :
  is_space c = false → rstrip (q +:+ String c r) = q +:+ String c (rstrip r).
Proof.
  intros Hc. induction q as [|a q IH].
  - change ("" +:+ String c r) with (String c r).
    change ("" +:+ String c (rstrip r)) with (String c (rstrip r)).
    cbn [rstrip]. rewrite Hc. by destruct (rstrip r).
  - change (String a q +:+ String c r) with (String a (q +:+ String c r)).
    cbn [rstrip]. rewrite IH.
    change (String a q +:+ String c (rstrip r))
      with (String a (q +:+ String c (rstrip r))).
    by destruct q.
Qed.

(** The text of [size_summary] is the header followed by the table lines,
    stripped of their trailing blanks. *)
Lemma strip_summary_text h :
  strip (summary_text h) = summary_header h +:+ rstrip (summary_lines h).
Proof.
  unfold strip.
  assert (Hsplit : summary_text h
    = (newline +:+ "Database Status: " +:+ upper (status h) +:+ newline +:+
       "Total Records: " +:+ format_commas (total_records h) +:+ newline +:+
       "Recommendation: " +:+ recommendation h +:+ newline +:+ newline +:+
       "Table Breakdown") +:+ String ":"%char (summary_lines h)).
  { unfold summary_text, summary_lines. by rewrite !string_app_assoc. }
  rewrite Hsplit, rstrip_app_nonspace by done.
  unfold summary_header. rewrite !string_app_assoc. reflexivity.
Qed.

(** [health_check] returns, and the status it gives follows [needs_cleanup]. *)
Lemma health_check_partial_shape fault now_iso db :
  ∃ h tr, health_check fault now_iso db = (db, tr, Ok h) ∧
          status h = if needs_cleanup h then "attention_needed" else "healthy".
Proof.
  eexists _, _. split; [apply health_check_spec|]. simpl.
  by destruct (100000 <? _).
Qed.

(** X21. The report of [size_summary] always opens with the status in
    capitals, the total with thousands separators and the recommendation,
    each on its line, then an empty line and "Table Breakdown:"; the check
    behind it is the one [health_check] makes. *)
Theorem size_summary_header fault now_iso db :
  ∃ h tr tail,
    health_check fault now_iso db = (db, tr, Ok h) ∧
    size_summary fault now_iso db
    = (db, tr,
       Ok ("Database Status: " +:+
           (if needs_cleanup h then "ATTENTION_NEEDED" else "HEALTHY") +:+
           newline +:+
           "Total Records: " +:+ format_commas (total_records h) +:+ newline +:+
           "Recommendation: " +:+ recommendation h +:+ newline +:+
           newline +:+
           "Table Breakdown:" +:+ tail)).
Proof.
  destruct (health_check_partial_shape fault now_iso db) as (h & tr & Hh & Hst).
  exists h, tr, (rstrip (summary_lines h)). split; [done|].
  unfold size_summary. rewrite Hh, strip_summary_text.
  unfold summary_header. rewrite Hst.
  do 2 f_equal. rewrite !string_app_assoc. by destruct (needs_cleanup h).
Qed.
